(** * FPS-Trainer: the aim-trainer session engine

    A shallow embedding of [src/AimTrainer.tsx] (the React component that
    owns targets, shot resolution, scoring and session statistics) and of
    the Convex mutation [saveSession] that stores a finished session.

    Number model.  A TypeScript [number] is an IEEE double; it is modelled
    by its exact value, a real number ([R]).  Fields that the program only
    ever fills with integers (counters incremented by literals, the score,
    which is a sum of [Math.floor] results, and [Date.now()] timestamps in
    milliseconds) are typed [Z] and injected with [IZR] where the source
    mixes them into real arithmetic.

    Effect model.  The component's [useState] cells form one record,
    [ClientState]; a handler maps the state of one render to the state of
    the next.  A state setter [setX(prev => f(prev))] only queues [f]: the
    updater runs when the component renders again, so a local variable
    that an updater assigns still has its initial value in the rest of the
    handler, and a function kept by an interval sees the state of the
    render in which the interval was created.  [Date.now()] and
    [Math.random()] are inputs of each handler: [now] is the clock reading
    and [rnd k] is the result of the k-th call to [Math.random()] that the
    handler's updaters make.
    Audio output ([playHitSound], [playMissSound], [initAudioContext]) and
    canvas drawing hold no state the engine reads and are left out. *)

From Stdlib Require Import Reals ZArith List Bool String Lia Lra.
Import ListNotations.

Local Open Scope R_scope.

(** ** JavaScript primitives on numbers *)

Module JS.

(** [x <= y] as a JavaScript boolean. *)
Definition leb (x y : R) : bool := if Rle_dec x y then true else false.

(** [x < y]. *)
Definition ltb (x y : R) : bool := if Rlt_dec x y then true else false.

(** [x >= y]. *)
Definition geb (x y : R) : bool := leb y x.

(** [x > y]. *)
Definition gtb (x y : R) : bool := ltb y x.

(** [x !== y] on numbers. *)
Definition neqb (x y : R) : bool := if Req_dec_T x y then false else true.

(** Truthiness of an optional number: [undefined] and [0] are falsy. *)
Definition truthy (v : option R) : bool :=
  match v with
  | None => false
  | Some x => neqb x 0
  end.

(** [Math.floor], as an integer. *)
Definition floor (x : R) : Z := Zfloor x.

(** Truncation towards zero, the quotient used by [%]. *)
Definition trunc (x : R) : Z := if leb 0 x then Zfloor x else Zceil x.

(** [x % m] on numbers: the remainder has the sign of the dividend. *)
Definition rem (x m : R) : R := x - m * IZR (trunc (x / m)).

(** [Math.atan2(y, x)], in radians. *)
Definition atan2 (y x : R) : R :=
  if ltb 0 x then atan (y / x)
  else if ltb x 0 then (if leb 0 y then atan (y / x) + PI else atan (y / x) - PI)
  else if ltb 0 y then PI / 2
  else if ltb y 0 then - PI / 2
  else 0.

(** [Math.sqrt(Math.pow(dx, 2) + Math.pow(dy, 2))]. *)
Definition hypot2 (dx dy : R) : R := sqrt (dx ^ 2 + dy ^ 2).

End JS.

(** ** Data model (the interfaces at the top of AimTrainer.tsx) *)

Inductive GameMode := classic | speed | precision.

Inductive HitZone := center | ring | edge.

Inductive Direction := overshoot | undershoot | hit.

Record Target := mkTarget {
  t_id : R;
  t_x : R;
  t_y : R;
  t_size : R;
  t_createdAt : Z;
  t_velocityX : option R;
  t_velocityY : option R;
  t_shrinking : bool          (* [undefined] is [false] *)
}.

Record HitEffect := mkHitEffect {
  he_id : R;
  he_x : R;
  he_y : R;
  he_createdAt : Z;
  he_type : HitZone;
  he_score : Z
}.

Record MissEffect := mkMissEffect {
  me_id : R;
  me_x : R;
  me_y : R;
  me_createdAt : Z;
  me_distance : R;
  me_direction : string
}.

(** [soundEnabled] and [soundVolume] only drive the audio output and are
    left out with it. *)
Record GameSettings := mkSettings {
  targetSize : R;
  targetSpeed : R;
  gameTime : Z
}.

Record GameStats := mkStats {
  score : Z;
  targetsHit : Z;
  targetsMissed : Z;
  reactionTimes : list Z;
  startTime : Z;
  centerHits : Z;
  ringHits : Z;
  edgeHits : Z;
  totalShots : Z;
  overshoots : Z;
  undershoots : Z;
  averageMissDistance : R
}.

Record ShotAnalysis := mkShot {
  sa_distance : R;
  sa_direction : Direction;
  sa_angle : R
}.

Record Bounds := mkBounds { width : R; height : R }.

(** The [useState] cells of the component that the engine reads or writes. *)
Record ClientState := mkClient {
  isPlaying : bool;
  targets : list Target;
  hitEffects : list HitEffect;
  missEffects : list MissEffect;
  lastShotAnalysis : option ShotAnalysis;
  gameStats : GameStats;
  timeLeft : Z
}.

(** The statistics every session starts from ([useState] initial value and
    [startGame]); [startTime] is the clock at start. *)
Definition zeroStats (start : Z) : GameStats :=
  mkStats 0 0 0 [] start 0 0 0 0 0 0 0.

(** ** Zone classifier *)

Definition getHitZone (distance targetSize : R) : HitZone :=
  let radius := targetSize / 2 in
  if JS.leb distance (radius * 0.25) then center
  else if JS.leb distance (radius * 0.6) then ring
  else edge.

Definition getScoreMultiplier (hitZone : HitZone) : R :=
  match hitZone with
  | center => 2.0
  | ring => 1.5
  | edge => 1.0
  end.

(** ** Shot analyzer *)

(** Distance from the click to a target's centre. *)
Definition clickDistance (clickX clickY : R) (t : Target) : R :=
  JS.hypot2 (clickX - t_x t) (clickY - t_y t).

(** One iteration of the [for (const target of targets)] loop: the pair is
    ([closestTarget], [minDistance]). *)
Definition closerOf (clickX clickY : R) (acc : Target * R) (t : Target)
  : Target * R :=
  let distance := clickDistance clickX clickY t in
  if JS.ltb distance (snd acc) then (t, distance) else acc.

Definition findClosest (clickX clickY : R) (first : Target) (ts : list Target)
  : Target * R :=
  fold_left (closerOf clickX clickY) ts
            (first, clickDistance clickX clickY first).

Definition analyzeShot (clickX clickY : R) (ts : list Target) : ShotAnalysis :=
  match ts with
  | [] => mkShot 0 hit 0
  | first :: _ =>
      let (closestTarget, minDistance) := findClosest clickX clickY first ts in
      let angle :=
        JS.atan2 (clickY - t_y closestTarget) (clickX - t_x closestTarget)
        * 180 / PI in
      let targetRadius := t_size closestTarget / 2 in
      if JS.leb minDistance targetRadius then mkShot minDistance hit angle
      else
        let direction :=
          if JS.gtb minDistance (targetRadius * 1.5) then overshoot
          else undershoot in
        mkShot minDistance direction angle
  end.

Definition getDirectionText (angle : R) : string :=
  let normalizedAngle := JS.rem (JS.rem angle 360 + 360) 360 in
  if JS.geb normalizedAngle 337.5 || JS.ltb normalizedAngle 22.5 then "right"
  else if JS.geb normalizedAngle 22.5 && JS.ltb normalizedAngle 67.5
       then "bottom-right"
  else if JS.geb normalizedAngle 67.5 && JS.ltb normalizedAngle 112.5
       then "bottom"
  else if JS.geb normalizedAngle 112.5 && JS.ltb normalizedAngle 157.5
       then "bottom-left"
  else if JS.geb normalizedAngle 157.5 && JS.ltb normalizedAngle 202.5
       then "left"
  else if JS.geb normalizedAngle 202.5 && JS.ltb normalizedAngle 247.5
       then "top-left"
  else if JS.geb normalizedAngle 247.5 && JS.ltb normalizedAngle 292.5
       then "top"
  else "top-right".

(** ** State setters ([setTargets], [setGameStats], ...) *)

Definition setIsPlaying (b : bool) (st : ClientState) : ClientState :=
  mkClient b (targets st) (hitEffects st) (missEffects st)
           (lastShotAnalysis st) (gameStats st) (timeLeft st).

Definition setTargets (f : list Target -> list Target) (st : ClientState)
  : ClientState :=
  mkClient (isPlaying st) (f (targets st)) (hitEffects st) (missEffects st)
           (lastShotAnalysis st) (gameStats st) (timeLeft st).

Definition setHitEffects (f : list HitEffect -> list HitEffect)
  (st : ClientState) : ClientState :=
  mkClient (isPlaying st) (targets st) (f (hitEffects st)) (missEffects st)
           (lastShotAnalysis st) (gameStats st) (timeLeft st).

Definition setMissEffects (f : list MissEffect -> list MissEffect)
  (st : ClientState) : ClientState :=
  mkClient (isPlaying st) (targets st) (hitEffects st) (f (missEffects st))
           (lastShotAnalysis st) (gameStats st) (timeLeft st).

Definition setLastShotAnalysis (a : option ShotAnalysis) (st : ClientState)
  : ClientState :=
  mkClient (isPlaying st) (targets st) (hitEffects st) (missEffects st)
           a (gameStats st) (timeLeft st).

Definition setGameStats (f : GameStats -> GameStats) (st : ClientState)
  : ClientState :=
  mkClient (isPlaying st) (targets st) (hitEffects st) (missEffects st)
           (lastShotAnalysis st) (f (gameStats st)) (timeLeft st).

Definition setTimeLeft (f : Z -> Z) (st : ClientState) : ClientState :=
  mkClient (isPlaying st) (targets st) (hitEffects st) (missEffects st)
           (lastShotAnalysis st) (gameStats st) (f (timeLeft st)).

(** The component before the first game: the [useState] initial values. *)
Definition initialClient : ClientState :=
  mkClient false [] [] [] None (zeroStats 0) 30.

(** ** The statistics updaters passed to [setGameStats] *)

(** Updater of the hit branch of [handleCanvasClick]. *)
Definition recordHit (hitZone : HitZone) (awarded reactionTime : Z)
  (stats : GameStats) : GameStats :=
  mkStats (score stats + awarded)
          (targetsHit stats + 1)
          (targetsMissed stats)
          (reactionTimes stats ++ [reactionTime])
          (startTime stats)
          (match hitZone with center => centerHits stats + 1
                            | _ => centerHits stats end)
          (match hitZone with ring => ringHits stats + 1
                            | _ => ringHits stats end)
          (match hitZone with edge => edgeHits stats + 1
                            | _ => edgeHits stats end)
          (totalShots stats + 1)
          (overshoots stats)
          (undershoots stats)
          (averageMissDistance stats).

(** Updater of the [if (!hitTarget)] branch of [handleCanvasClick]. *)
Definition recordMiss (penalty : Z) (shotAnalysis : ShotAnalysis)
  (stats : GameStats) : GameStats :=
  let newMissDistance :=
    (averageMissDistance stats * IZR (targetsMissed stats)
     + sa_distance shotAnalysis) / (IZR (targetsMissed stats) + 1) in
  mkStats (score stats)
          (targetsHit stats)
          (targetsMissed stats + penalty)
          (reactionTimes stats)
          (startTime stats)
          (centerHits stats) (ringHits stats) (edgeHits stats)
          (totalShots stats + 1)
          (match sa_direction shotAnalysis with
           | overshoot => overshoots stats + 1
           | _ => overshoots stats end)
          (match sa_direction shotAnalysis with
           | undershoot => undershoots stats + 1
           | _ => undershoots stats end)
          newMissDistance.

(** Updater of the expiry callback scheduled by [spawnTarget]. *)
Definition recordExpiry (stats : GameStats) : GameStats :=
  mkStats (score stats) (targetsHit stats) (targetsMissed stats + 1)
          (reactionTimes stats) (startTime stats)
          (centerHits stats) (ringHits stats) (edgeHits stats)
          (totalShots stats) (overshoots stats) (undershoots stats)
          (averageMissDistance stats).

(** What a run of the [filter] callback of [handleCanvasClick] has done so
    far: the local [hitTarget], the number of [Math.random()] calls made,
    and the component state with the effects and statistics it has set. *)
Record ClickRun := mkRun {
  cr_hitTarget : bool;
  cr_draws : nat;
  cr_state : ClientState
}.

Section Component.

(** The closure of one render: mode and settings are fixed while a
    session runs (their controls are disabled while [isPlaying]). *)
Variable gameMode : GameMode.
Variable settings : GameSettings.

Definition getTargetLifetime : R :=
  match gameMode with
  | speed => Rmax 800 (targetSpeed settings - 500)
  | precision => targetSpeed settings + 1000
  | classic => targetSpeed settings
  end.

Definition getMaxTargets : nat :=
  match gameMode with
  | speed => 4
  | precision => 1
  | classic => 2
  end.

Definition getSpawnRate : Z :=
  match gameMode with
  | speed => 600
  | precision => 3000
  | classic => 1200
  end.

(** The [newTarget] built by [spawnTarget]; [rnd 0], [rnd 1], ... are the
    [Math.random()] results in call order. *)
Definition newTarget (bounds : Bounds) (now : Z) (rnd : nat -> R) : Target :=
  let margin := targetSize settings in
  let id := IZR now + rnd 0%nat in
  let x := margin + rnd 1%nat * (width bounds - 2 * margin) in
  let y := margin + rnd 2%nat * (height bounds - 2 * margin) in
  match gameMode with
  | speed =>
      let speed := 50 + rnd 3%nat * 100 in
      let angle := rnd 4%nat * 2 * PI in
      mkTarget id x y (Rmax 20 (targetSize settings - 15)) now
               (Some (cos angle * speed)) (Some (sin angle * speed)) false
  | precision =>
      mkTarget id x y (targetSize settings + 20) now None None true
  | classic =>
      mkTarget id x y (targetSize settings + (rnd 3%nat - 0.5) * 10) now
               None None false
  end.

(** [spawnTarget]: the new target joins the live collection.  The
    [setTimeout] it also arms runs [expireTarget] on the new target's id
    after [getTargetLifetime] milliseconds. *)
Definition spawnTarget (bounds : Bounds) (now : Z) (rnd : nat -> R)
  (st : ClientState) : ClientState :=
  setTargets (fun prev => prev ++ [newTarget bounds now rnd]) st.

(** The callback of that [setTimeout]. *)
Definition expireTarget (id : R) (st : ClientState) : ClientState :=
  let prev := targets st in
  let filtered := filter (fun t => JS.neqb (t_id t) id) prev in
  let st' :=
    if (List.length filtered <? List.length prev)%nat
    then setGameStats recordExpiry st
    else st in
  setTargets (fun _ => filtered) st'.

Definition getScoreForMode (mode : GameMode) (reactionTime : Z)
  (target : Target) : R :=
  match mode with
  | speed =>
      let speedBonus :=
        if JS.truthy (t_velocityX target) || JS.truthy (t_velocityY target)
        then 50 else 0 in
      Rmax (150 - IZR (JS.floor (IZR reactionTime / 8))) 20 + speedBonus
  | precision =>
      let sizeBonus :=
        Rmax 0 ((targetSize settings - t_size target) * 5) in
      let precisionBonus :=
        if (reactionTime <? 300)%Z then 300
        else if (reactionTime <? 600)%Z then 200 else 100 in
      precisionBonus + sizeBonus
  | classic =>
      Rmax (150 - IZR (JS.floor (IZR reactionTime / 20))) 25
  end.

(** The [score] computed for a target the click landed on. *)
Definition hitScore (now : Z) (clickX clickY : R) (target : Target) : Z :=
  let distance := clickDistance clickX clickY target in
  let reactionTime := (now - t_createdAt target)%Z in
  let hitZone := getHitZone distance (t_size target) in
  let scoreMultiplier := getScoreMultiplier hitZone in
  JS.floor (getScoreForMode gameMode reactionTime target * scoreMultiplier).

(** Body of the [if (distance <= target.size / 2)] branch of the filter
    callback: a hit effect is appended and the statistics are updated. *)
Definition registerHit (now : Z) (r : R) (clickX clickY : R)
  (target : Target) (st : ClientState) : ClientState :=
  let distance := clickDistance clickX clickY target in
  let reactionTime := (now - t_createdAt target)%Z in
  let hitZone := getHitZone distance (t_size target) in
  let awarded := hitScore now clickX clickY target in
  let st1 :=
    setHitEffects
      (fun prev =>
         prev ++ [mkHitEffect (IZR now + r) clickX clickY now hitZone awarded])
      st in
  setGameStats (recordHit hitZone awarded reactionTime) st1.

(** Does the click land on this target ([distance <= target.size / 2])? *)
Definition covers (clickX clickY : R) (target : Target) : bool :=
  JS.leb (clickDistance clickX clickY target) (t_size target / 2).

(** [prev.filter(target => ...)] with the callback's side effects threaded
    from the first target to the last. *)
Fixpoint filterHits (now : Z) (rnd : nat -> R) (clickX clickY : R)
  (prev : list Target) (run : ClickRun) : list Target * ClickRun :=
  match prev with
  | [] => ([], run)
  | target :: rest =>
      if covers clickX clickY target then
        filterHits now rnd clickX clickY rest
          (mkRun true (S (cr_draws run))
                 (registerHit now (rnd (cr_draws run)) clickX clickY target
                              (cr_state run)))
      else
        let (kept, run') := filterHits now rnd clickX clickY rest run in
        (target :: kept, run')
  end.

Definition penalty : Z :=
  match gameMode with precision => 2 | _ => 1 end.

(** [handleCanvasClick].  The [filter] updater passed to [setTargets] is
    queued behind [setLastShotAnalysis] and runs at the next render, after
    the handler has returned: the handler's [if (!hitTarget)] reads the
    local [hitTarget] while it still is [false], so the miss branch is
    taken on every click made while playing, whether the filter then
    removes targets or not.  In the next render the hit effects are built
    before the miss effect, which fixes the order of the draws; the miss
    updater and the hit updaters of [setGameStats] write different fields
    but for [totalShots], which each raises by one. *)
Definition handleCanvasClick (now : Z) (rnd : nat -> R) (clickX clickY : R)
  (st : ClientState) : ClientState :=
  if negb (isPlaying st) then st
  else
    let shotAnalysis := analyzeShot clickX clickY (targets st) in
    let st1 := setLastShotAnalysis (Some shotAnalysis) st in
    let hitTarget := false in
    let (newTargets, run) :=
      filterHits now rnd clickX clickY (targets st1) (mkRun false 0 st1) in
    let st2 := setTargets (fun _ => newTargets) (cr_state run) in
    if negb hitTarget then
      let st3 :=
        setMissEffects
          (fun prev =>
             prev ++ [mkMissEffect (IZR now + rnd (cr_draws run))
                                   clickX clickY now
                                   (sa_distance shotAnalysis)
                                   (getDirectionText (sa_angle shotAnalysis))])
          st2 in
      setGameStats (recordMiss penalty shotAnalysis) st3
    else st2.

(** One target's step of the animation interval (every 16 ms). *)
Definition animateTarget (bounds : Bounds) (now : Z) (target : Target)
  : Target :=
  let moved :=
    match t_velocityX target, t_velocityY target with
    | Some velocityX, Some velocityY =>
        let x1 := t_x target + velocityX * 0.016 in
        let y1 := t_y target + velocityY * 0.016 in
        let half := t_size target / 2 in
        let vx :=
          if JS.leb x1 half || JS.geb x1 (width bounds - half)
          then - velocityX else velocityX in
        let vy :=
          if JS.leb y1 half || JS.geb y1 (height bounds - half)
          then - velocityY else velocityY in
        let x2 := Rmax half (Rmin (width bounds - half) x1) in
        let y2 := Rmax half (Rmin (height bounds - half) y1) in
        mkTarget (t_id target) x2 y2 (t_size target) (t_createdAt target)
                 (Some vx) (Some vy) (t_shrinking target)
    | _, _ => target
    end in
  if t_shrinking target then
    let age := (now - t_createdAt target)%Z in
    let maxAge := getTargetLifetime in
    let shrinkFactor := Rmax 0.3 (1 - (IZR age / maxAge) * 0.7) in
    mkTarget (t_id moved) (t_x moved) (t_y moved)
             ((targetSize settings + 20) * shrinkFactor)
             (t_createdAt moved) (t_velocityX moved) (t_velocityY moved)
             (t_shrinking moved)
  else moved.

Definition animationTick (bounds : Bounds) (now : Z) (st : ClientState)
  : ClientState :=
  if negb (isPlaying st) then st
  else setTargets (map (animateTarget bounds now)) st.

(** The spawn interval. *)
Definition spawnTick (bounds : Bounds) (now : Z) (rnd : nat -> R)
  (st : ClientState) : ClientState :=
  if negb (isPlaying st) then st
  else if (List.length (targets st) <? getMaxTargets)%nat
       then spawnTarget bounds now rnd st
       else st.

(** The effect clean-up interval (every 100 ms, playing or not). *)
Definition cleanupTick (now : Z) (st : ClientState) : ClientState :=
  setMissEffects
    (filter (fun e => (now - me_createdAt e <? 1500)%Z))
    (setHitEffects
       (filter (fun e => (now - he_createdAt e <? 1000)%Z)) st).

Definition startGame (bounds : Bounds) (now : Z) (rnd : nat -> R)
  (st : ClientState) : ClientState :=
  let st1 := setIsPlaying true st in
  let st2 := setTimeLeft (fun _ => gameTime settings) st1 in
  let st3 := setGameStats (fun _ => zeroStats now) st2 in
  let st4 := setTargets (fun _ => []) st3 in
  let st5 := setHitEffects (fun _ => []) st4 in
  let st6 := setMissEffects (fun _ => []) st5 in
  let st7 := setLastShotAnalysis None st6 in
  spawnTarget bounds now rnd st7.

End Component.

(** ** The persistence backend (convex/aimTraining.ts, convex/schema.ts) *)

Module Convex.

(** A user's document id, as [getAuthUserId] returns it. *)
Definition UserId := string.

Record SettingsArg := mkSettingsArg {
  s_targetSize : R;
  s_targetSpeed : R;
  s_gameTime : R
}.

(** The validated arguments of the [saveSession] mutation. *)
Record SessionArgs := mkArgs {
  a_gameMode : string;
  a_score : R;
  a_accuracy : R;
  a_averageReactionTime : R;
  a_targetsHit : R;
  a_targetsMissed : R;
  a_duration : R;
  a_centerHits : option R;
  a_ringHits : option R;
  a_edgeHits : option R;
  a_settings : SettingsArg
}.

(** A row of the [aimSessions] table: [{ userId, ...args }]. *)
Record AimSession := mkDoc {
  d_userId : UserId;
  d_args : SessionArgs
}.

(** The mutation context: who is calling, and the table. *)
Record Ctx := mkCtx {
  auth : option UserId;
  aimSessions : list AimSession
}.

(** Outcome of a mutation: an error thrown, or the value returned. *)
Definition Result (A : Type) : Type := (string + A)%type.

Definition getAuthUserId (ctx : Ctx) : option UserId := auth ctx.

(** [ctx.db.insert("aimSessions", doc)]: the row is appended; the id
    returned is its position in the table. *)
Definition insert (doc : AimSession) (ctx : Ctx) : nat * Ctx :=
  (List.length (aimSessions ctx), mkCtx (auth ctx) (aimSessions ctx ++ [doc])).

(** The handler of [saveSession].  A thrown error leaves the table as it
    was. *)
Definition saveSession (ctx : Ctx) (args : SessionArgs)
  : Result nat * Ctx :=
  match getAuthUserId ctx with
  | None => (inl "Must be logged in to save session"%string, ctx)
  | Some userId =>
      let (id, ctx') := insert (mkDoc userId args) ctx in
      (inr id, ctx')
  end.

(** What [getUserStats] returns to a signed-in caller. *)
Record UserStats := mkUserStats {
  totalSessions : nat;
  bestScore : R;
  averageAccuracy : R;
  averageReactionTime : R;
  recentSessions : list AimSession
}.

(** [ctx.db.query("aimSessions").withIndex("by_user", q => q.eq("userId",
    userId)).order("desc").take(50)]: the caller's rows, newest first, at
    most fifty.  Rows are stored in creation order. *)
Definition userSessions (userId : UserId) (ctx : Ctx) : list AimSession :=
  firstn 50
    (rev (filter (fun d => String.eqb (d_userId d) userId) (aimSessions ctx))).

(** The handler of [getUserStats]; [None] is [null].  [Math.max(...scores)]
    is only evaluated on a non-empty list. *)
Definition getUserStats (ctx : Ctx) : option UserStats :=
  match getAuthUserId ctx with
  | None => None
  | Some userId =>
      let sessions := userSessions userId ctx in
      match sessions with
      | [] => Some (mkUserStats 0 0 0 0 [])
      | s :: rest =>
          let totalSessions := List.length sessions in
          let bestScore :=
            fold_left Rmax (map (fun d => a_score (d_args d)) rest)
                      (a_score (d_args s)) in
          let averageAccuracy :=
            fold_left (fun sum d => sum + a_accuracy (d_args d)) sessions 0
            / INR totalSessions in
          let averageReactionTime :=
            fold_left (fun sum d => sum + a_averageReactionTime (d_args d))
                      sessions 0
            / INR totalSessions in
          Some (mkUserStats totalSessions bestScore averageAccuracy
                            averageReactionTime (firstn 10 sessions))
      end
  end.

End Convex.

(** ** Session end *)

(** What [toast] is asked to show.  The success message carries the score,
    the accuracy and the share of centre hits ([toFixed] formatting is left
    to the display). *)
Inductive Toast :=
| toast_success (score : Z) (accuracy centerPercent : R)
| toast_error (message : string).

(** The component together with the backend it talks to and the
    notifications it has raised. *)
Record World := mkWorld {
  client : ClientState;
  server : Convex.Ctx;
  toasts : list Toast
}.

Definition modeName (m : GameMode) : string :=
  match m with
  | classic => "classic"
  | speed => "speed"
  | precision => "precision"
  end.

(** [accuracy] as [endGame] (and the stats panel) compute it. *)
Definition accuracyOf (stats : GameStats) : R :=
  let totalTargets := (targetsHit stats + targetsMissed stats)%Z in
  if (0 <? totalTargets)%Z
  then IZR (targetsHit stats) / IZR totalTargets * 100
  else 0.

(** [avgReactionTime] as [endGame] computes it. *)
Definition avgReactionTimeOf (stats : GameStats) : R :=
  if (0 <? List.length (reactionTimes stats))%nat
  then IZR (fold_left Z.add (reactionTimes stats) 0%Z)
       / INR (List.length (reactionTimes stats))
  else 0.

Section SessionEnd.

Variable gameMode : GameMode.
Variable settings : GameSettings.

(** The [saveSession] handle obtained from [useMutation]: calling it runs
    some mutation against the backend and either resolves or rejects. *)
Variable callSave :
  Convex.Ctx -> Convex.SessionArgs -> Convex.Result nat * Convex.Ctx.

(** The record [endGame] hands to [saveSession]. *)
Definition sessionArgs (stats : GameStats) : Convex.SessionArgs :=
  Convex.mkArgs
    (modeName gameMode)
    (IZR (score stats))
    (accuracyOf stats)
    (avgReactionTimeOf stats)
    (IZR (targetsHit stats))
    (IZR (targetsMissed stats))
    (IZR (gameTime settings))
    (Some (IZR (centerHits stats)))
    (Some (IZR (ringHits stats)))
    (Some (IZR (edgeHits stats)))
    (Convex.mkSettingsArg (targetSize settings) (targetSpeed settings)
                          (IZR (gameTime settings))).

(** [endGame]: the statistics sent are the [gameStats] the handler sees when
    it is called; the [catch] branch only raises a notification. *)
Definition endGame (w : World) : World :=
  let stats := gameStats (client w) in
  let st1 := setIsPlaying false (client w) in
  let st2 := setTargets (fun _ => []) st1 in
  match callSave (server w) (sessionArgs stats) with
  | (inr _, srv) =>
      let centerPercent :=
        if (0 <? targetsHit stats)%Z
        then IZR (centerHits stats) / IZR (targetsHit stats) * 100
        else 0 in
      mkWorld st2 srv
              (toasts w ++ [toast_success (score stats) (accuracyOf stats)
                                          centerPercent])
  | (inl _, srv) =>
      mkWorld st2 srv (toasts w ++ [toast_error "Failed to save game session"])
  end.

Definition stopGame (w : World) : World := endGame w.

(** The statistics of the render in which the game started: [startGame]
    sets every counter to zero and stamps [startTime], and no updater
    changes [startTime] afterwards. *)
Definition startOfGameStats (w : World) : GameStats :=
  zeroStats (startTime (gameStats (client w))).

(** [endGame] as the countdown interval calls it.  The interval is created
    by the effect that depends on [isPlaying] alone, so it keeps the
    [endGame] of the render in which the game started: that closure reads
    the start-of-game [gameStats], while its state setters act on the
    current state. *)
Definition endGameOfStartRender (w : World) : World :=
  let stats := startOfGameStats w in
  let st1 := setIsPlaying false (client w) in
  let st2 := setTargets (fun _ => []) st1 in
  match callSave (server w) (sessionArgs stats) with
  | (inr _, srv) =>
      let centerPercent :=
        if (0 <? targetsHit stats)%Z
        then IZR (centerHits stats) / IZR (targetsHit stats) * 100
        else 0 in
      mkWorld st2 srv
              (toasts w ++ [toast_success (score stats) (accuracyOf stats)
                                          centerPercent])
  | (inl _, srv) =>
      mkWorld st2 srv (toasts w ++ [toast_error "Failed to save game session"])
  end.

(** The countdown interval (every second while playing). *)
Definition timerTick (w : World) : World :=
  if negb (isPlaying (client w)) then w
  else if (timeLeft (client w) <=? 1)%Z then
    let w' := endGameOfStartRender w in
    mkWorld (setTimeLeft (fun _ => 0%Z) (client w')) (server w') (toasts w')
  else
    mkWorld (setTimeLeft (fun prev => (prev - 1)%Z) (client w))
            (server w) (toasts w).

End SessionEnd.

(** ** Sessions as event traces

    Handlers and interval callbacks run to completion one at a time; a
    session is the sequence of the ones that ran.  The expiry callbacks are
    events of their own, so every firing order of the timers is covered. *)

Inductive Event :=
| EvClick (now : Z) (rnd : nat -> R) (clickX clickY : R)
| EvExpire (id : R)
| EvSpawnTick (bounds : Bounds) (now : Z) (rnd : nat -> R)
| EvAnimationTick (bounds : Bounds) (now : Z)
| EvCleanupTick (now : Z)
| EvTimerTick
| EvStop.

(** Bookkeeping kept beside a run, in the vocabulary of the specification:
    how many targets expired untouched, how many clicks landed on no
    target, and the distances the shot analysis reported for those. *)
Record Tally := mkTally {
  passiveExpiries : Z;
  activeMisses : Z;
  missDistances : list R
}.

Definition noTally : Tally := mkTally 0 0 [].

(** Arithmetic mean of a non-empty sample. *)
Definition mean (ds : list R) : R :=
  fold_right Rplus 0 ds / INR (List.length ds).

Section Session.

Variable gameMode : GameMode.
Variable settings : GameSettings.
Variable callSave :
  Convex.Ctx -> Convex.SessionArgs -> Convex.Result nat * Convex.Ctx.

Definition onClient (f : ClientState -> ClientState) (w : World) : World :=
  mkWorld (f (client w)) (server w) (toasts w).

Definition step (e : Event) (w : World) : World :=
  match e with
  | EvClick now rnd clickX clickY =>
      onClient (handleCanvasClick gameMode settings now rnd clickX clickY) w
  | EvExpire id => onClient (expireTarget id) w
  | EvSpawnTick bounds now rnd =>
      onClient (spawnTick gameMode settings bounds now rnd) w
  | EvAnimationTick bounds now =>
      onClient (animationTick gameMode settings bounds now) w
  | EvCleanupTick now => onClient (cleanupTick now) w
  | EvTimerTick => timerTick gameMode settings callSave w
  | EvStop => stopGame gameMode settings callSave w
  end.

(** The tally after event [e], read off the state the event meets. *)
Definition tally (e : Event) (st : ClientState) (g : Tally) : Tally :=
  match e with
  | EvExpire id =>
      if existsb (fun t => negb (JS.neqb (t_id t) id)) (targets st)
      then mkTally (passiveExpiries g + 1) (activeMisses g) (missDistances g)
      else g
  | EvClick _ _ clickX clickY =>
      if isPlaying st && negb (existsb (covers clickX clickY) (targets st))
      then mkTally (passiveExpiries g) (activeMisses g + 1)
                   (missDistances g
                    ++ [sa_distance (analyzeShot clickX clickY (targets st))])
      else g
  | _ => g
  end.

Fixpoint run (evs : list Event) (w : World) (g : Tally) : World * Tally :=
  match evs with
  | [] => (w, g)
  | e :: rest => run rest (step e w) (tally e (client w) g)
  end.

(** A session: [startGame], then the events that follow it. *)
Definition session (bounds : Bounds) (now : Z) (rnd : nat -> R)
  (evs : list Event) (w : World) : World * Tally :=
  run evs (onClient (startGame gameMode settings bounds now rnd) w) noTally.

End Session.

(** A second book kept beside a run: every click made while playing, with
    the distance its shot analysis reported.  These are the clicks the
    handler books in its miss branch. *)
Record ClickLog := mkClickLog {
  clicksPlayed : Z;
  analysedDistances : list R
}.

Definition noClicks : ClickLog := mkClickLog 0 [].

Definition logClick (e : Event) (st : ClientState) (c : ClickLog) : ClickLog :=
  match e with
  | EvClick _ _ clickX clickY =>
      if isPlaying st
      then mkClickLog (clicksPlayed c + 1)
                      (analysedDistances c
                       ++ [sa_distance (analyzeShot clickX clickY (targets st))])
      else c
  | _ => c
  end.

Section Played.

Variable gameMode : GameMode.
Variable settings : GameSettings.
Variable callSave :
  Convex.Ctx -> Convex.SessionArgs -> Convex.Result nat * Convex.Ctx.

Fixpoint clickLog (evs : list Event) (w : World) (c : ClickLog) : ClickLog :=
  match evs with
  | [] => c
  | e :: rest =>
      clickLog rest (step gameMode settings callSave e w)
               (logClick e (client w) c)
  end.

(** The click log of a session. *)
Definition sessionClicks (bounds : Bounds) (now : Z) (rnd : nat -> R)
  (evs : list Event) (w : World) : ClickLog :=
  clickLog evs (onClient (startGame gameMode settings bounds now rnd) w)
           noClicks.

End Played.

(** ** The scoring rule in the words of the specification *)

(** A target "has velocity" when [spawnTarget] gave it one. *)
Definition hasVelocity (t : Target) : bool :=
  match t_velocityX t, t_velocityY t with
  | None, None => false
  | _, _ => true
  end.

(** Base score of a hit, before the zone multiplier. *)
Definition baseScore (mode : GameMode) (settings : GameSettings)
  (reactionTime : Z) (target : Target) : R :=
  match mode with
  | speed =>
      IZR (Z.max (150 - reactionTime / 8) 20)
      + (if hasVelocity target then 50 else 0)
  | precision =>
      Rmax 0 ((targetSize settings - t_size target) * 5)
      + (if (reactionTime <? 300)%Z then 300
         else if (reactionTime <? 600)%Z then 200 else 100)
  | classic => IZR (Z.max (150 - reactionTime / 20) 25)
  end.

(** The velocity of a live target is either absent or a non-zero vector:
    what [spawnTarget] produces and the animation keeps. *)
Definition velocityOk (t : Target) : Prop :=
  match t_velocityX t, t_velocityY t with
  | None, None => True
  | Some vx, Some vy => vx <> 0 \/ vy <> 0
  | _, _ => False
  end.

(** ** What the canvas shows (the rendering effect)

    Only the numbers the drawing code computes from the engine's state are
    modelled: radii, opacities and the overlay's accuracy figure. *)

(** Radii of the three filled circles drawn for a target: the whole disc,
    the middle ring and the centre. *)
Definition drawnRadii (target : Target) : R * R * R :=
  let radius := t_size target / 2 in
  (radius, radius * 0.6, radius * 0.25).

(** Opacity of a hit effect ([progress = age / 1000]). *)
Definition hitEffectOpacity (now : Z) (effect : HitEffect) : R :=
  let age := (now - he_createdAt effect)%Z in
  let progress := IZR age / 1000 in
  Rmax 0 (1 - progress).

(** Opacity of a miss effect ([progress = age / 1500]). *)
Definition missEffectOpacity (now : Z) (effect : MissEffect) : R :=
  let age := (now - me_createdAt effect)%Z in
  let progress := IZR age / 1500 in
  Rmax 0 (1 - progress).

(** The accuracy figure of the fullscreen overlay. *)
Definition overlayAccuracy (stats : GameStats) : R :=
  IZR (targetsHit stats)
  / Rmax 1 (IZR (targetsHit stats + targetsMissed stats)) * 100.

(** ** Vocabulary of the statements *)

(** The targets a click lands on. *)
Definition hitsOf (clickX clickY : R) (ts : list Target) : list Target :=
  filter (covers clickX clickY) ts.

Definition sumZ (zs : list Z) : Z := fold_right Z.add 0%Z zs.

(** [s'] is [s] after [n] hits worth [pts] points, and nothing else: the
    miss side of the statistics is untouched. *)
Definition hitsRecorded (n pts : Z) (s s' : GameStats) : Prop :=
  targetsHit s' = (targetsHit s + n)%Z /\
  totalShots s' = (totalShots s + n)%Z /\
  score s' = (score s + pts)%Z /\
  targetsMissed s' = targetsMissed s /\
  overshoots s' = overshoots s /\
  undershoots s' = undershoots s /\
  averageMissDistance s' = averageMissDistance s.

(** Two states that differ at most in hit effects and statistics. *)
Definition sameBoard (st st' : ClientState) : Prop :=
  isPlaying st' = isPlaying st /\
  targets st' = targets st /\
  missEffects st' = missEffects st /\
  lastShotAnalysis st' = lastShotAnalysis st /\
  timeLeft st' = timeLeft st.

(** The accounting that every run keeps between the statistics, the tally
    and the click log: each click made while playing costs [penalty] in
    [targetsMissed] but is one shot. *)
Definition accounted (mode : GameMode) (s : GameStats) (g : Tally)
  (c : ClickLog) : Prop :=
  (0 <= targetsHit s)%Z /\
  (0 <= targetsMissed s)%Z /\
  (0 <= activeMisses g <= clicksPlayed c)%Z /\
  (targetsHit s + targetsMissed s
   = totalShots s + passiveExpiries g
     + (penalty mode - 1) * clicksPlayed c)%Z.

(** While no target has expired untouched, the stored average times the
    number of clicks booked is the sum of their analysed distances. *)
Definition meanKept (s : GameStats) (g : Tally) (c : ClickLog) : Prop :=
  (0 <= passiveExpiries g)%Z /\
  ((passiveExpiries g = 0)%Z ->
   targetsMissed s = Z.of_nat (List.length (analysedDistances c)) /\
   averageMissDistance s * INR (List.length (analysedDistances c))
   = fold_right Rplus 0 (analysedDistances c)).

(** The draws an event consumes are results of [Math.random()]. *)
Definition drawsOk (e : Event) : Prop :=
  match e with
  | EvClick _ rnd _ _ => forall k : nat, 0 <= rnd k < 1
  | EvSpawnTick _ _ rnd => forall k : nat, 0 <= rnd k < 1
  | _ => True
  end.

(** The target's disc lies within the canvas. *)
Definition insideCanvas (bounds : Bounds) (t : Target) : Prop :=
  t_size t / 2 <= t_x t <= width bounds - t_size t / 2 /\
  t_size t / 2 <= t_y t <= height bounds - t_size t / 2.

(** The octant names of [getDirectionText], by the normalized angle. *)
Definition octantOf (n : R) : string :=
  if Rle_dec 337.5 n then "right"
  else if Rlt_dec n 22.5 then "right"
  else if Rlt_dec n 67.5 then "bottom-right"
  else if Rlt_dec n 112.5 then "bottom"
  else if Rlt_dec n 157.5 then "bottom-left"
  else if Rlt_dec n 202.5 then "left"
  else if Rlt_dec n 247.5 then "top-left"
  else if Rlt_dec n 292.5 then "top"
  else "top-right".

(** The bookkeeping of a session, counter by counter. *)
Definition decomposed (mode : GameMode) (s : GameStats) (g : Tally)
  (c : ClickLog) : Prop :=
  totalShots s = (targetsHit s + clicksPlayed c)%Z /\
  targetsMissed s = (passiveExpiries g + penalty mode * clicksPlayed c)%Z /\
  (centerHits s + ringHits s + edgeHits s = targetsHit s)%Z /\
  Z.of_nat (List.length (reactionTimes s)) = targetsHit s /\
  (0 <= overshoots s)%Z /\ (0 <= undershoots s)%Z /\
  (overshoots s + undershoots s <= clicksPlayed c)%Z /\
  (20 * targetsHit s <= score s)%Z.

(** All live targets carry different ids. *)
Definition distinctIds (ts : list Target) : Prop := NoDup (map t_id ts).

(** ** Sample data *)

(** The default settings of the component. *)
Definition defaultSettings : GameSettings := mkSettings 50 2000 30.

Definition canvas : Bounds := mkBounds 800 600.

(** The idle component put into play with nothing on the canvas. *)
Definition playingEmpty : ClientState :=
  mkClient true [] [] [] None (zeroStats 0) 30.

(** A session in play with the given live targets. *)
Definition playingWith (ts : list Target) : ClientState :=
  mkClient true ts [] [] None (zeroStats 0) 30.

(** Two overlapping Classic targets, ten pixels apart. *)
Definition overlapA : Target := mkTarget 1 100 100 50 0 None None false.
Definition overlapB : Target := mkTarget 2 110 100 50 0 None None false.

(** A small Classic target with a larger one beside it. *)
Definition smallNear : Target := mkTarget 1 100 100 45 0 None None false.
Definition largeFar : Target := mkTarget 2 150 100 55 0 None None false.

(** The component before its first game, facing a backend with no caller
    identity, and facing one where [user] is signed in. *)
Definition signedOut : Convex.Ctx := Convex.mkCtx None [].

Definition signedIn (user : Convex.UserId) : Convex.Ctx :=
  Convex.mkCtx (Some user) [].

Definition idleWorld (srv : Convex.Ctx) : World := mkWorld initialClient srv [].

(** A session stopped with 25 of its 30 seconds left. *)
Definition earlyStop (srv : Convex.Ctx) : World :=
  mkWorld (mkClient true [] [] [] None (zeroStats 0) 25) srv [].

(** A finished Classic session's record, for the backend examples. *)
Definition sampleArgs : Convex.SessionArgs :=
  sessionArgs classic defaultSettings (zeroStats 0).

(** * Properties *)

(** ** Comparisons *)

Lemma leb_true_iff (x y : R) : JS.leb x y = true <-> x <= y.
Proof. unfold JS.leb; destruct (Rle_dec x y); split; intros; try easy. Qed.

Lemma leb_false_iff (x y : R) : JS.leb x y = false <-> y < x.
Proof.
  unfold JS.leb; destruct (Rle_dec x y); split; intros; try easy; lra.
Qed.

Lemma ltb_true_iff (x y : R) : JS.ltb x y = true <-> x < y.
Proof. unfold JS.ltb; destruct (Rlt_dec x y); split; intros; try easy. Qed.

Lemma ltb_false_iff (x y : R) : JS.ltb x y = false <-> y <= x.
Proof.
  unfold JS.ltb; destruct (Rlt_dec x y); split; intros; try easy; lra.
Qed.

Lemma neqb_true_iff (x y : R) : JS.neqb x y = true <-> x <> y.
Proof. unfold JS.neqb; destruct (Req_dec_T x y); split; intros; easy. Qed.

Lemma neqb_false_iff (x y : R) : JS.neqb x y = false <-> x = y.
Proof.
  unfold JS.neqb; destruct (Req_dec_T x y); split; intros; try easy.
Qed.

(** Settle the comparisons of a goal whose operands are known numbers. *)
Ltac js_compare :=
  repeat match goal with
    | |- context [JS.leb ?a ?b] =>
        first [ rewrite (proj2 (leb_true_iff a b)) by lra
              | rewrite (proj2 (leb_false_iff a b)) by lra ]
    | |- context [JS.ltb ?a ?b] =>
        first [ rewrite (proj2 (ltb_true_iff a b)) by lra
              | rewrite (proj2 (ltb_false_iff a b)) by lra ]
    | |- context [JS.neqb ?a ?b] =>
        first [ rewrite (proj2 (neqb_true_iff a b)) by lra
              | rewrite (proj2 (neqb_false_iff a b)) by lra ]
    end.

(** ** Zones *)

Lemma getHitZone_center (d s : R) :
  getHitZone d s = center <-> d <= 0.25 * (s / 2).
Proof.
  unfold getHitZone.
  destruct (JS.leb d (s / 2 * 0.25)) eqn:E1.
  - apply leb_true_iff in E1. split; [lra | reflexivity].
  - apply leb_false_iff in E1.
    destruct (JS.leb d (s / 2 * 0.6)); split; intros H; try discriminate; lra.
Qed.

Lemma getHitZone_ring (d s : R) :
  getHitZone d s = ring <-> 0.25 * (s / 2) < d <= 0.6 * (s / 2).
Proof.
  unfold getHitZone.
  destruct (JS.leb d (s / 2 * 0.25)) eqn:E1.
  - apply leb_true_iff in E1. split; intros H; [discriminate | lra].
  - apply leb_false_iff in E1.
    destruct (JS.leb d (s / 2 * 0.6)) eqn:E2.
    + apply leb_true_iff in E2. split; [lra | reflexivity].
    + apply leb_false_iff in E2. split; intros H; [discriminate | lra].
Qed.

Lemma getHitZone_edge (d s : R) :
  getHitZone d s = edge <-> 0.6 * (s / 2) < d /\ 0.25 * (s / 2) < d.
Proof.
  unfold getHitZone.
  destruct (JS.leb d (s / 2 * 0.25)) eqn:E1.
  - apply leb_true_iff in E1. split; intros H; [discriminate | lra].
  - apply leb_false_iff in E1.
    destruct (JS.leb d (s / 2 * 0.6)) eqn:E2.
    + apply leb_true_iff in E2. split; intros H; [discriminate | lra].
    + apply leb_false_iff in E2. split; [lra | reflexivity].
Qed.

(** C6: with radius = s/2, a distance d >= 0 on a target of size s > 0 is
    Center iff d <= 0.25 radius, Ring iff 0.25 radius < d <= 0.6 radius and
    Edge otherwise; the zones nest (a larger distance never earns a larger
    multiplier, and the Center disc lies inside the Ring disc); the
    multipliers are 2.0 > 1.5 > 1.0. *)
Theorem C6_zones_and_multipliers (d s : R) (Hd : 0 <= d) (Hs : 0 < s) :
  let radius := s / 2 in
  (getHitZone d s = center <-> d <= 0.25 * radius) /\
  (getHitZone d s = ring <-> 0.25 * radius < d <= 0.6 * radius) /\
  (getHitZone d s = edge <-> ~ d <= 0.6 * radius) /\
  0.25 * radius < 0.6 * radius /\
  (forall d', d <= d' ->
     getScoreMultiplier (getHitZone d' s) <= getScoreMultiplier (getHitZone d s)) /\
  getScoreMultiplier center = 2.0 /\
  getScoreMultiplier ring = 1.5 /\
  getScoreMultiplier edge = 1.0 /\
  getScoreMultiplier center > getScoreMultiplier ring /\
  getScoreMultiplier ring > getScoreMultiplier edge.
Proof.
  cbv zeta.
  split; [apply getHitZone_center|].
  split; [apply getHitZone_ring|].
  split.
  { rewrite getHitZone_edge. split; intros H; lra. }
  split; [lra|].
  split.
  { intros d' Hle.
    destruct (getHitZone d s) eqn:Z1; destruct (getHitZone d' s) eqn:Z2;
      simpl; try lra.
    - apply getHitZone_center in Z2. apply getHitZone_ring in Z1. lra.
    - apply getHitZone_center in Z2. apply getHitZone_edge in Z1. lra.
    - apply getHitZone_ring in Z2. apply getHitZone_edge in Z1. lra. }
  simpl. repeat split; lra.
Qed.

Lemma C6_zones_and_multipliers_witness :
  (getHitZone 5 50 = center <-> 5 <= 0.25 * (50 / 2)) /\
  getScoreMultiplier (getHitZone 5 50) = 2.0.
Proof.
  pose proof (C6_zones_and_multipliers 5 50 ltac:(lra) ltac:(lra)) as H.
  cbv zeta in H. destruct H as [Hc _].
  split; [exact Hc|].
  rewrite (proj2 Hc) by lra. reflexivity.
Defined.

(** ** Clicks with no live target *)

Lemma trunc_IZR (z : Z) : JS.trunc (IZR z) = z.
Proof.
  unfold JS.trunc. destruct (JS.leb 0 (IZR z)).
  - apply ZfloorZ.
  - apply Zceil_eq. lra.
Qed.

Lemma getDirectionText_0 : getDirectionText 0 = "right"%string.
Proof.
  unfold getDirectionText, JS.rem, JS.geb.
  replace (0 / 360) with (IZR 0) by lra. rewrite trunc_IZR.
  replace ((0 - 360 * 0 + 360) / 360) with (IZR 1) by lra. rewrite trunc_IZR.
  js_compare. reflexivity.
Qed.

(** The state a click reaches when it meets no live target. *)
Lemma handleCanvasClick_no_target gameMode settings now rnd clickX clickY st :
  isPlaying st = true ->
  targets st = [] ->
  handleCanvasClick gameMode settings now rnd clickX clickY st
  = setGameStats (recordMiss (penalty gameMode) (mkShot 0 hit 0))
      (setMissEffects
         (fun prev =>
            prev ++ [mkMissEffect (IZR now + rnd 0%nat) clickX clickY now 0
                                  (getDirectionText 0)])
         (setTargets (fun _ => [])
            (setLastShotAnalysis (Some (mkShot 0 hit 0)) st))).
Proof.
  intros Hplay Hempty.
  unfold handleCanvasClick. rewrite Hplay. cbn [negb setLastShotAnalysis targets].
  rewrite Hempty. reflexivity.
Qed.

(** C1, as stated, fails: in Classic mode a click on an empty canvas is
    counted as a shot and as a miss, and leaves a miss effect behind. *)
Lemma C1_empty_click_counterexample :
  let st' :=
    handleCanvasClick classic defaultSettings 1000 (fun _ => 0) 400 300
                      playingEmpty in
  analyzeShot 400 300 (targets playingEmpty) = mkShot 0 hit 0 /\
  totalShots (gameStats playingEmpty) = 0%Z /\
  totalShots (gameStats st') = 1%Z /\
  targetsMissed (gameStats playingEmpty) = 0%Z /\
  targetsMissed (gameStats st') = 1%Z /\
  missEffects playingEmpty = [] /\
  List.length (missEffects st') = 1%nat.
Proof.
  cbv zeta.
  rewrite handleCanvasClick_no_target by reflexivity.
  repeat split.
Qed.

(** C1 (amended): while playing with no live target, the shot analysis is
    the degenerate result (distance 0, bearing 0, 'hit'), no target is hit
    and nothing is scored, but the click is processed as a miss: totalShots
    grows by 1 and targetsMissed by the mode's penalty (2 in Precision, 1
    otherwise), one miss effect with distance 0 is created, and score,
    targetsHit, overshoots, undershoots and the hit effects stay as they
    were. *)
Theorem C1_empty_click_is_a_miss gameMode settings now rnd clickX clickY st
  (Hplay : isPlaying st = true) (Hempty : targets st = []) :
  let st' := handleCanvasClick gameMode settings now rnd clickX clickY st in
  analyzeShot clickX clickY (targets st) = mkShot 0 hit 0 /\
  lastShotAnalysis st' = Some (mkShot 0 hit 0) /\
  score (gameStats st') = score (gameStats st) /\
  targetsHit (gameStats st') = targetsHit (gameStats st) /\
  overshoots (gameStats st') = overshoots (gameStats st) /\
  undershoots (gameStats st') = undershoots (gameStats st) /\
  totalShots (gameStats st') = (totalShots (gameStats st) + 1)%Z /\
  targetsMissed (gameStats st')
  = (targetsMissed (gameStats st) + match gameMode with
                                    | precision => 2
                                    | _ => 1
                                    end)%Z /\
  hitEffects st' = hitEffects st /\
  missEffects st'
  = missEffects st
    ++ [mkMissEffect (IZR now + rnd 0%nat) clickX clickY now 0 "right"] /\
  targets st' = [].
Proof.
  cbv zeta.
  rewrite handleCanvasClick_no_target by assumption.
  rewrite Hempty, getDirectionText_0.
  destruct gameMode; repeat split.
Qed.

Lemma C1_empty_click_is_a_miss_witness :
  totalShots
    (gameStats (handleCanvasClick precision defaultSettings 1000 (fun _ => 0)
                                  400 300 playingEmpty)) = 1%Z /\
  targetsMissed
    (gameStats (handleCanvasClick precision defaultSettings 1000 (fun _ => 0)
                                  400 300 playingEmpty)) = 2%Z.
Proof.
  pose proof (C1_empty_click_is_a_miss precision defaultSettings 1000
                (fun _ => 0) 400 300 playingEmpty eq_refl eq_refl) as H.
  cbv zeta in H.
  destruct H as (_ & _ & _ & _ & _ & _ & Hshots & Hmissed & _).
  split; [exact Hshots | exact Hmissed].
Defined.

(** ** Geometry *)

Lemma hypot2_nonneg (dx dy : R) : 0 <= JS.hypot2 dx dy.
Proof. apply sqrt_pos. Qed.

Lemma hypot2_horizontal (dx : R) : JS.hypot2 dx 0 = Rabs dx.
Proof.
  unfold JS.hypot2.
  replace (dx ^ 2 + 0 ^ 2) with (Rsqr dx) by (unfold Rsqr; ring).
  apply sqrt_Rsqr_abs.
Qed.

Lemma clickDistance_nonneg (x y : R) (t : Target) : 0 <= clickDistance x y t.
Proof. apply hypot2_nonneg. Qed.

(** Click and centre on one horizontal line, click to the right. *)
Lemma clickDistance_right (x y : R) (t : Target) :
  t_y t = y -> t_x t <= x -> clickDistance x y t = x - t_x t.
Proof.
  intros Hy Hx. unfold clickDistance.
  rewrite Hy. replace (y - y) with 0 by ring.
  rewrite hypot2_horizontal. apply Rabs_right. lra.
Qed.

(** Click to the left of the centre. *)
Lemma clickDistance_left (x y : R) (t : Target) :
  t_y t = y -> x <= t_x t -> clickDistance x y t = t_x t - x.
Proof.
  intros Hy Hx. unfold clickDistance.
  rewrite Hy. replace (y - y) with 0 by ring.
  rewrite hypot2_horizontal. rewrite Rabs_left1 by lra. ring.
Qed.

(** ** The nearest-target search of [analyzeShot] *)

Lemma fold_closerOf (x y : R) (ts : list Target) :
  forall c m,
    m = clickDistance x y c ->
    let r := fold_left (closerOf x y) ts (c, m) in
    snd r = clickDistance x y (fst r) /\
    snd r <= m /\
    (fst r = c \/ In (fst r) ts) /\
    (forall t, In t ts -> snd r <= clickDistance x y t).
Proof.
  induction ts as [|t ts IH]; intros c m Hm; cbn [fold_left].
  - cbn. repeat split; try lra; auto. intros t [].
  - destruct (JS.ltb (clickDistance x y t) m) eqn:E.
    + assert (Hstep : closerOf x y (c, m) t = (t, clickDistance x y t))
        by (unfold closerOf; cbn [snd]; rewrite E; reflexivity).
      rewrite Hstep. apply ltb_true_iff in E.
      destruct (IH t (clickDistance x y t) eq_refl) as (H1 & H2 & H3 & H4).
      cbv zeta. repeat split.
      * exact H1.
      * lra.
      * right. destruct H3 as [H3 | H3];
          [left; symmetry; exact H3 | right; exact H3].
      * intros t' [<- | Hin]; [exact H2 | apply H4, Hin].
    + assert (Hstep : closerOf x y (c, m) t = (c, m))
        by (unfold closerOf; cbn [snd]; rewrite E; reflexivity).
      rewrite Hstep. apply ltb_false_iff in E.
      destruct (IH c m Hm) as (H1 & H2 & H3 & H4).
      cbv zeta. repeat split.
      * exact H1.
      * exact H2.
      * destruct H3 as [H3 | H3]; [left; exact H3 | right; right; exact H3].
      * intros t' [<- | Hin]; [lra | apply H4, Hin].
Qed.

Lemma findClosest_nearest (x y : R) (first : Target) (rest : list Target) :
  let r := findClosest x y first (first :: rest) in
  In (fst r) (first :: rest) /\
  snd r = clickDistance x y (fst r) /\
  (forall t, In t (first :: rest) -> snd r <= clickDistance x y t).
Proof.
  unfold findClosest.
  destruct (fold_closerOf x y (first :: rest) first
              (clickDistance x y first) eq_refl) as (H1 & _ & H3 & H4).
  cbv zeta. repeat split.
  - destruct H3 as [H3 | H3]; [left; symmetry; exact H3 | exact H3].
  - exact H1.
  - exact H4.
Qed.

(** What [analyzeShot] reports on a non-empty collection. *)
Lemma analyzeShot_nearest (x y : R) (ts : list Target) :
  ts <> [] ->
  exists nearest,
    In nearest ts /\
    (forall t, In t ts -> clickDistance x y nearest <= clickDistance x y t) /\
    sa_distance (analyzeShot x y ts) = clickDistance x y nearest /\
    (sa_direction (analyzeShot x y ts) = hit
     <-> clickDistance x y nearest <= t_size nearest / 2).
Proof.
  destruct ts as [|first rest]; [congruence | intros _].
  pose proof (findClosest_nearest x y first rest) as H. cbv zeta in H.
  unfold analyzeShot.
  destruct (findClosest x y first (first :: rest)) as [c m].
  cbn [fst snd] in H. destruct H as (Hin & Hm & Hmin).
  exists c. subst m. split; [exact Hin|]. split; [exact Hmin|].
  destruct (JS.leb (clickDistance x y c) (t_size c / 2)) eqn:E; cbn.
  - apply leb_true_iff in E. split; [reflexivity|]. split; auto.
  - apply leb_false_iff in E. split; [reflexivity|].
    destruct (JS.gtb _ _); split; intros H; try discriminate; lra.
Qed.

(** ** The hit filter of [handleCanvasClick] *)

Section ClickFacts.

Variable gameMode : GameMode.
Variable settings : GameSettings.
Variables (now : Z) (rnd : nat -> R) (clickX clickY : R).

Lemma registerHit_board r target st :
  sameBoard st (registerHit gameMode settings now r clickX clickY target st).
Proof. repeat split. Qed.

Lemma registerHit_stats r target st :
  hitsRecorded 1 (hitScore gameMode settings now clickX clickY target)
    (gameStats st)
    (gameStats (registerHit gameMode settings now r clickX clickY target st)).
Proof. repeat split. Qed.

Lemma filterHits_kept prev : forall run,
  fst (filterHits gameMode settings now rnd clickX clickY prev run)
  = filter (fun t => negb (covers clickX clickY t)) prev.
Proof.
  induction prev as [|t prev IH]; intros run; cbn [filterHits filter].
  - reflexivity.
  - destruct (covers clickX clickY t); cbn [negb].
    + apply IH.
    + specialize (IH run).
      destruct (filterHits gameMode settings now rnd clickX clickY prev run).
      cbn [fst] in *. now rewrite IH.
Qed.

Lemma filterHits_flag prev : forall run,
  cr_hitTarget
    (snd (filterHits gameMode settings now rnd clickX clickY prev run))
  = cr_hitTarget run || existsb (covers clickX clickY) prev.
Proof.
  induction prev as [|t prev IH]; intros run; cbn [filterHits existsb].
  - cbn. now rewrite orb_false_r.
  - destruct (covers clickX clickY t); cbn [orb].
    + rewrite IH. cbn. now rewrite orb_true_r.
    + specialize (IH run).
      destruct (filterHits gameMode settings now rnd clickX clickY prev run).
      cbn [snd] in *. exact IH.
Qed.

Lemma filterHits_draws prev : forall run,
  cr_draws
    (snd (filterHits gameMode settings now rnd clickX clickY prev run))
  = (cr_draws run + List.length (hitsOf clickX clickY prev))%nat.
Proof.
  unfold hitsOf.
  induction prev as [|t prev IH]; intros run; cbn [filterHits filter].
  - cbn. lia.
  - destruct (covers clickX clickY t).
    + rewrite IH. cbn. lia.
    + specialize (IH run).
      destruct (filterHits gameMode settings now rnd clickX clickY prev run).
      cbn [snd] in *. exact IH.
Qed.

Lemma filterHits_board prev : forall run,
  sameBoard (cr_state run)
    (cr_state
       (snd (filterHits gameMode settings now rnd clickX clickY prev run))).
Proof.
  induction prev as [|t prev IH]; intros run; cbn [filterHits].
  - repeat split.
  - destruct (covers clickX clickY t).
    + destruct (IH (mkRun true (S (cr_draws run))
                      (registerHit gameMode settings now (rnd (cr_draws run))
                                   clickX clickY t (cr_state run))))
        as (H1 & H2 & H3 & H4 & H5).
      repeat split; [rewrite H1 | rewrite H2 | rewrite H3 | rewrite H4
                     | rewrite H5]; reflexivity.
    + specialize (IH run).
      destruct (filterHits gameMode settings now rnd clickX clickY prev run).
      cbn [snd] in *. exact IH.
Qed.

Lemma filterHits_stats prev : forall run,
  hitsRecorded
    (Z.of_nat (List.length (hitsOf clickX clickY prev)))
    (sumZ (map (hitScore gameMode settings now clickX clickY)
               (hitsOf clickX clickY prev)))
    (gameStats (cr_state run))
    (gameStats
       (cr_state
          (snd (filterHits gameMode settings now rnd clickX clickY prev run)))).
Proof.
  unfold hitsOf.
  induction prev as [|t prev IH]; intros run; cbn [filterHits filter].
  - cbn. unfold hitsRecorded. repeat split; lia.
  - destruct (covers clickX clickY t).
    + destruct (IH (mkRun true (S (cr_draws run))
                      (registerHit gameMode settings now (rnd (cr_draws run))
                                   clickX clickY t (cr_state run))))
        as (H1 & H2 & H3 & H4 & H5 & H6 & H7).
      cbn [cr_state] in *.
      destruct (registerHit_stats (rnd (cr_draws run)) t (cr_state run))
        as (G1 & G2 & G3 & G4 & G5 & G6 & G7).
      cbn [List.length map sumZ fold_right].
      fold (sumZ (map (hitScore gameMode settings now clickX clickY)
                      (filter (covers clickX clickY) prev))).
      unfold hitsRecorded. repeat split; try lia; congruence.
    + specialize (IH run).
      destruct (filterHits gameMode settings now rnd clickX clickY prev run).
      cbn [snd] in *. exact IH.
Qed.

(** With no target under the click the filter changes nothing. *)
Lemma filterHits_none prev run :
  existsb (covers clickX clickY) prev = false ->
  filterHits gameMode settings now rnd clickX clickY prev run = (prev, run).
Proof.
  induction prev as [|t prev IH]; cbn [filterHits existsb]; intros H.
  - reflexivity.
  - apply orb_false_iff in H. destruct H as [Ht Hrest].
    rewrite Ht, (IH Hrest). reflexivity.
Qed.

(** A click that lands on no target: the miss branch. *)
Lemma handleCanvasClick_miss st :
  isPlaying st = true ->
  existsb (covers clickX clickY) (targets st) = false ->
  handleCanvasClick gameMode settings now rnd clickX clickY st
  = let shotAnalysis := analyzeShot clickX clickY (targets st) in
    setGameStats (recordMiss (penalty gameMode) shotAnalysis)
      (setMissEffects
         (fun prev =>
            prev ++ [mkMissEffect (IZR now + rnd 0%nat) clickX clickY now
                                  (sa_distance shotAnalysis)
                                  (getDirectionText (sa_angle shotAnalysis))])
         (setTargets (fun _ => targets st)
            (setLastShotAnalysis (Some shotAnalysis) st))).
Proof.
  intros Hplay Hnone.
  unfold handleCanvasClick. rewrite Hplay.
  cbn [negb setLastShotAnalysis targets].
  rewrite filterHits_none by exact Hnone.
  reflexivity.
Qed.

(** Every click made while playing: the filter result, then the miss
    branch. *)
Lemma handleCanvasClick_playing st :
  isPlaying st = true ->
  handleCanvasClick gameMode settings now rnd clickX clickY st
  = let shotAnalysis := analyzeShot clickX clickY (targets st) in
    let r :=
      filterHits gameMode settings now rnd clickX clickY (targets st)
                 (mkRun false 0 (setLastShotAnalysis (Some shotAnalysis) st)) in
    setGameStats (recordMiss (penalty gameMode) shotAnalysis)
      (setMissEffects
         (fun prev =>
            prev ++ [mkMissEffect (IZR now + rnd (cr_draws (snd r)))
                                  clickX clickY now
                                  (sa_distance shotAnalysis)
                                  (getDirectionText (sa_angle shotAnalysis))])
         (setTargets (fun _ => fst r) (cr_state (snd r)))).
Proof.
  intros Hplay. unfold handleCanvasClick. rewrite Hplay. cbn [negb].
  set (st1 := setLastShotAnalysis _ st).
  change (targets st1) with (targets st).
  destruct (filterHits gameMode settings now rnd clickX clickY (targets st)
              (mkRun false 0 st1)) as [kept run].
  reflexivity.
Qed.

(** What a click made while playing does to targets and statistics: every
    covered target is removed and recorded as a hit, and the miss updater
    is applied on top. *)
Lemma handleCanvasClick_hit st :
  isPlaying st = true ->
  let st' := handleCanvasClick gameMode settings now rnd clickX clickY st in
  targets st' = filter (fun t => negb (covers clickX clickY t)) (targets st) /\
  isPlaying st' = true /\
  exists afterHits,
    hitsRecorded
      (Z.of_nat (List.length (hitsOf clickX clickY (targets st))))
      (sumZ (map (hitScore gameMode settings now clickX clickY)
                 (hitsOf clickX clickY (targets st))))
      (gameStats st) afterHits /\
    gameStats st'
    = recordMiss (penalty gameMode)
                 (analyzeShot clickX clickY (targets st)) afterHits.
Proof.
  intros Hplay. cbv zeta.
  rewrite handleCanvasClick_playing by exact Hplay. cbv zeta.
  set (st1 := setLastShotAnalysis _ st).
  pose proof (filterHits_kept (targets st) (mkRun false 0 st1)) as Hk.
  pose proof (filterHits_board (targets st) (mkRun false 0 st1)) as Hb.
  pose proof (filterHits_stats (targets st) (mkRun false 0 st1)) as Hs.
  destruct (filterHits gameMode settings now rnd clickX clickY (targets st)
              (mkRun false 0 st1)) as [kept run].
  cbn [fst snd cr_state] in *.
  destruct Hb as (B1 & _).
  split; [exact Hk|].
  split; [cbn; rewrite B1; exact Hplay|].
  exists (gameStats (cr_state run)). split; [exact Hs | reflexivity].
Qed.

End ClickFacts.

(** ** Which targets a click resolves against *)

Lemma covers_true_iff (x y : R) (t : Target) :
  covers x y t = true <-> clickDistance x y t <= t_size t / 2.
Proof. apply leb_true_iff. Qed.

Lemma covers_false_iff (x y : R) (t : Target) :
  covers x y t = false <-> t_size t / 2 < clickDistance x y t.
Proof. apply leb_false_iff. Qed.

Lemma overlap_distances :
  clickDistance 105 100 overlapA = 5 /\ clickDistance 105 100 overlapB = 5.
Proof.
  split.
  - rewrite clickDistance_right; cbn; lra.
  - rewrite clickDistance_left; cbn; lra.
Qed.

Lemma small_large_distances :
  clickDistance 123 100 smallNear = 23 /\ clickDistance 123 100 largeFar = 27.
Proof.
  split.
  - rewrite clickDistance_right; cbn; lra.
  - rewrite clickDistance_left; cbn; lra.
Qed.

Lemma hitsOf_nil_iff (x y : R) (ts : list Target) :
  existsb (covers x y) ts = false <-> hitsOf x y ts = [].
Proof.
  unfold hitsOf. induction ts as [|t ts IH]; cbn.
  - tauto.
  - destruct (covers x y t); cbn; [split; discriminate | exact IH].
Qed.

Lemma filter_uncovered (x y : R) (ts : list Target) :
  existsb (covers x y) ts = false ->
  filter (fun t => negb (covers x y t)) ts = ts.
Proof.
  induction ts as [|t ts IH]; cbn; intros E.
  - reflexivity.
  - apply orb_false_iff in E. destruct E as [Et Ets].
    rewrite Et. cbn. now rewrite IH.
Qed.

(** C4, as stated, fails twice.  A click between two overlapping targets
    removes and scores both; and a click that misses the nearest target
    (analysis: undershoot, 23 px from a radius of 22.5) is still a hit when
    a farther, larger target covers it. *)
Lemma C4_nearest_only_counterexample :
  (let st := playingWith [overlapA; overlapB] in
   let st' :=
     handleCanvasClick classic defaultSettings 500 (fun _ => 0) 105 100 st in
   targets st' = [] /\
   targetsHit (gameStats st') = 2%Z) /\
  (let st := playingWith [smallNear; largeFar] in
   let st' :=
     handleCanvasClick classic defaultSettings 500 (fun _ => 0) 123 100 st in
   clickDistance 123 100 smallNear < clickDistance 123 100 largeFar /\
   t_size smallNear / 2 < clickDistance 123 100 smallNear /\
   sa_direction (analyzeShot 123 100 (targets st)) = undershoot /\
   targets st' = [smallNear] /\
   targetsHit (gameStats st') = 1%Z).
Proof.
  destruct overlap_distances as [dA dB].
  destruct small_large_distances as [dS dL].
  split; cbv zeta.
  - assert (cA : covers 105 100 overlapA = true)
      by (apply covers_true_iff; rewrite dA; cbn; lra).
    assert (cB : covers 105 100 overlapB = true)
      by (apply covers_true_iff; rewrite dB; cbn; lra).
    destruct (handleCanvasClick_hit classic defaultSettings 500 (fun _ => 0)
                105 100 (playingWith [overlapA; overlapB]) eq_refl)
      as (Ht & _ & s1 & (Hh & _) & Hs).
    cbv zeta in Ht. unfold hitsOf in *.
    cbn [playingWith targets filter] in *. rewrite cA, cB in *.
    cbn in Ht, Hh. split; [exact Ht|].
    rewrite Hs. cbn [recordMiss targetsHit]. exact Hh.
  - assert (cS : covers 123 100 smallNear = false)
      by (apply covers_false_iff; rewrite dS; cbn; lra).
    assert (cL : covers 123 100 largeFar = true)
      by (apply covers_true_iff; rewrite dL; cbn; lra).
    destruct (handleCanvasClick_hit classic defaultSettings 500 (fun _ => 0)
                123 100 (playingWith [smallNear; largeFar]) eq_refl)
      as (Ht & _ & s1 & (Hh & _) & Hs).
    cbv zeta in Ht. unfold hitsOf in *.
    cbn [playingWith targets filter] in *. rewrite cS, cL in *.
    cbn in Ht, Hh.
    split; [rewrite dS, dL; lra|].
    split; [rewrite dS; cbn; lra|].
    split.
    { unfold analyzeShot, findClosest. cbn [fold_left].
      unfold closerOf. cbn [snd]. rewrite dS.
      js_compare. cbn [snd]. rewrite dL. js_compare.
      cbn [t_size smallNear]. unfold JS.gtb. js_compare. reflexivity. }
    split; [exact Ht|].
    rewrite Hs. cbn [recordMiss targetsHit]. exact Hh.
Qed.

(** C4 (amended): on a non-empty collection the shot analysis is made
    against the Euclidean-nearest target and reports 'hit' exactly when the
    click is within that target's radius; the click handler tests every
    live target against its own radius and removes and scores each target
    the click lands on (possibly several), so a click scores a hit exactly
    when some target covers it, whether or not the nearest one does. *)
Theorem C4_click_resolution gameMode settings now rnd clickX clickY st
  (Hplay : isPlaying st = true) (Hlive : targets st <> []) :
  let st' := handleCanvasClick gameMode settings now rnd clickX clickY st in
  let shot := analyzeShot clickX clickY (targets st) in
  (exists nearest,
      In nearest (targets st) /\
      (forall t, In t (targets st) ->
                 clickDistance clickX clickY nearest
                 <= clickDistance clickX clickY t) /\
      sa_distance shot = clickDistance clickX clickY nearest /\
      (sa_direction shot = hit
       <-> clickDistance clickX clickY nearest <= t_size nearest / 2)) /\
  (forall t, In t (targets st') <->
             In t (targets st)
             /\ t_size t / 2 < clickDistance clickX clickY t) /\
  targets st'
  = filter (fun t => negb (covers clickX clickY t)) (targets st) /\
  targetsHit (gameStats st')
  = (targetsHit (gameStats st)
     + Z.of_nat (List.length (hitsOf clickX clickY (targets st))))%Z /\
  ((targetsHit (gameStats st) < targetsHit (gameStats st'))%Z
   <-> exists t, In t (targets st) /\
                 clickDistance clickX clickY t <= t_size t / 2).
Proof.
  cbv zeta.
  split; [apply analyzeShot_nearest, Hlive|].
  destruct (handleCanvasClick_hit gameMode settings now rnd clickX clickY st
              Hplay) as (Hfilter & _ & s1 & (Hh & _) & Hs).
  cbv zeta in Hfilter.
  assert (Hcount :
    targetsHit
      (gameStats (handleCanvasClick gameMode settings now rnd clickX clickY st))
    = (targetsHit (gameStats st)
       + Z.of_nat (List.length (hitsOf clickX clickY (targets st))))%Z).
  { rewrite Hs. cbn [recordMiss targetsHit]. exact Hh. }
  split.
  { intros t. rewrite Hfilter, filter_In, negb_true_iff, covers_false_iff.
    tauto. }
  split; [exact Hfilter|].
  split; [exact Hcount|].
  rewrite Hcount. split.
  - intros Hlt.
    destruct (hitsOf clickX clickY (targets st)) as [|t hits] eqn:E;
      [cbn in Hlt; lia|].
    exists t.
    assert (Hin : In t (hitsOf clickX clickY (targets st)))
      by (rewrite E; left; reflexivity).
    unfold hitsOf in Hin. apply filter_In in Hin.
    split; [apply Hin | apply covers_true_iff, Hin].
  - intros (t & Hin & Hc).
    assert (Hin' : In t (hitsOf clickX clickY (targets st))).
    { unfold hitsOf. apply filter_In. split; [exact Hin|].
      apply covers_true_iff, Hc. }
    destruct (hitsOf clickX clickY (targets st)); [destruct Hin'|].
    cbn [List.length]. lia.
Qed.

Lemma C4_click_resolution_witness :
  targets (handleCanvasClick classic defaultSettings 500 (fun _ => 0) 105 100
             (playingWith [overlapA; overlapB]))
  = filter (fun t => negb (covers 105 100 t)) [overlapA; overlapB].
Proof.
  pose proof (C4_click_resolution classic defaultSettings 500 (fun _ => 0)
                105 100 (playingWith [overlapA; overlapB]) eq_refl
                ltac:(discriminate)) as H.
  cbv zeta in H. destruct H as (_ & _ & Hf & _).
  exact Hf.
Defined.

(** ** Scoring *)

Lemma floor_div (n d : Z) :
  (0 < d)%Z -> JS.floor (IZR n / IZR d) = (n / d)%Z.
Proof.
  intros Hd. unfold JS.floor. apply Zfloor_eq.
  pose proof (Z.div_mod n d ltac:(lia)) as Hdm.
  pose proof (Z.mod_pos_bound n d Hd) as [Hlo Hhi].
  assert (HdR : 0 < IZR d) by (apply IZR_lt; exact Hd).
  assert (Hn : IZR n = IZR d * IZR (n / d) + IZR (n mod d)).
  { rewrite <- mult_IZR, <- plus_IZR. now f_equal. }
  apply IZR_le in Hlo. apply IZR_lt in Hhi.
  split.
  - apply Rmult_le_reg_r with (IZR d); [exact HdR|].
    unfold Rdiv. rewrite Rmult_assoc, Rinv_l by lra. lra.
  - apply Rmult_lt_reg_r with (IZR d); [exact HdR|].
    unfold Rdiv. rewrite Rmult_assoc, Rinv_l by lra. lra.
Qed.

Lemma Rmax_IZR (a b : Z) : Rmax (IZR a) (IZR b) = IZR (Z.max a b).
Proof.
  destruct (Z.le_ge_cases a b) as [H | H].
  - rewrite Z.max_r by exact H. apply Rmax_right, IZR_le, H.
  - rewrite Z.max_l by exact H. apply Rmax_left, IZR_le, H.
Qed.

Lemma floor_IZR (z : Z) (x : R) : x = IZR z -> JS.floor x = z.
Proof. intros ->. apply ZfloorZ. Qed.

(** On a live target the truthiness test of the speed bonus sees exactly
    whether the target was given a velocity. *)
Lemma speedBonus_hasVelocity (t : Target) :
  velocityOk t ->
  JS.truthy (t_velocityX t) || JS.truthy (t_velocityY t) = hasVelocity t.
Proof.
  unfold velocityOk, hasVelocity, JS.truthy.
  destruct (t_velocityX t) as [vx|], (t_velocityY t) as [vy|];
    try tauto.
  intros [H | H].
  - rewrite (proj2 (neqb_true_iff vx 0) H). reflexivity.
  - rewrite (proj2 (neqb_true_iff vy 0) H). apply orb_true_r.
Qed.

(** The code's base score is the specification's. *)
Lemma getScoreForMode_baseScore mode settings reactionTime target :
  velocityOk target ->
  getScoreForMode settings mode reactionTime target
  = baseScore mode settings reactionTime target.
Proof.
  intros Hv. unfold getScoreForMode, baseScore. destruct mode.
  - change 20 with (IZR 20). rewrite (floor_div reactionTime 20) by lia.
    change 150 with (IZR 150). rewrite <- minus_IZR.
    change 25 with (IZR 25). apply Rmax_IZR.
  - rewrite speedBonus_hasVelocity by exact Hv.
    change 8 with (IZR 8). rewrite (floor_div reactionTime 8) by lia.
    change 150 with (IZR 150). rewrite <- minus_IZR.
    change 20 with (IZR 20). now rewrite Rmax_IZR.
  - apply Rplus_comm.
Qed.

(** Velocities of spawned targets: none outside Speed mode, and in Speed
    mode a vector of length [50 + 100 * rnd 3]. *)
Lemma newTarget_velocityOk gameMode settings bounds now rnd :
  0 <= rnd 3%nat ->
  velocityOk (newTarget gameMode settings bounds now rnd).
Proof.
  intros Hr. unfold velocityOk, newTarget. destruct gameMode; cbn; auto.
  set (a := rnd 4%nat * 2 * PI).
  destruct (Req_dec_T (cos a) 0) as [Hc | Hc].
  - right. pose proof (sin2_cos2 a) as H. unfold Rsqr in H.
    rewrite Hc in H. intros Hs.
    apply Rmult_integral in Hs. destruct Hs as [Hs | Hs]; [|lra].
    rewrite Hs in H. lra.
  - left. intros Hz. apply Rmult_integral in Hz. destruct Hz; lra.
Qed.

(** The animation only negates velocity components. *)
Lemma animateTarget_velocityOk gameMode settings bounds now t :
  velocityOk t ->
  velocityOk (animateTarget gameMode settings bounds now t).
Proof.
  unfold velocityOk, animateTarget.
  destruct (t_velocityX t) as [vx|] eqn:Ex, (t_velocityY t) as [vy|] eqn:Ey;
    try tauto.
  - intros Hv.
    assert (Hneg : forall (b : bool) v, v <> 0 -> (if b then - v else v) <> 0)
      by (intros [] v Hnz; lra).
    destruct (t_shrinking t); cbn;
      (destruct Hv as [Hv | Hv]; [left | right]; apply Hneg, Hv).
  - intros _. destruct (t_shrinking t); cbn; rewrite ?Ex, ?Ey; exact I.
Qed.

Lemma sumZ_map_ext {A} (f g : A -> Z) (l : list A) :
  (forall a, In a l -> f a = g a) -> sumZ (map f l) = sumZ (map g l).
Proof.
  intros H. unfold sumZ. f_equal. apply map_ext_in, H.
Qed.

Lemma hitScore_baseScore mode settings now clickX clickY target :
  velocityOk target ->
  hitScore mode settings now clickX clickY target
  = JS.floor
      (baseScore mode settings (now - t_createdAt target) target
       * getScoreMultiplier
           (getHitZone (clickDistance clickX clickY target) (t_size target))).
Proof.
  intros Hv. unfold hitScore. now rewrite getScoreForMode_baseScore.
Qed.

(** C5: the score awarded for a hit is floor(base * zoneMultiplier(zone)),
    base being max(150 - floor(rt/8), 20) plus 50 for a target with
    velocity in Speed mode, max(0, (settings.targetSize - target.size) * 5)
    plus the reaction tier 300/200/100 in Precision mode, and
    max(150 - floor(rt/20), 25) in Classic mode; a click adds exactly these
    awards to the session score.  Classic, 100 ms, Center gives 290;
    Precision, 250 ms, size 40 against 50, Ring gives 525. *)
Theorem C5_awarded_score mode settings now rnd r clickX clickY target st
  (Hv : velocityOk target) :
  let reactionTime := (now - t_createdAt target)%Z in
  let zone := getHitZone (clickDistance clickX clickY target) (t_size target) in
  let award t :=
    JS.floor
      (baseScore mode settings (now - t_createdAt t) t
       * getScoreMultiplier
           (getHitZone (clickDistance clickX clickY t) (t_size t))) in
  hitScore mode settings now clickX clickY target = award target /\
  score (gameStats (registerHit mode settings now r clickX clickY target st))
  = (score (gameStats st) + award target)%Z /\
  (isPlaying st = true ->
   Forall velocityOk (targets st) ->
   score (gameStats (handleCanvasClick mode settings now rnd clickX clickY st))
   = (score (gameStats st)
      + sumZ (map award (hitsOf clickX clickY (targets st))))%Z) /\
  (mode = classic -> reactionTime = 100%Z -> zone = center ->
   award target = 290%Z) /\
  (mode = precision -> reactionTime = 250%Z -> t_size target = 40 ->
   targetSize settings = 50 -> zone = ring ->
   award target = 525%Z).
Proof.
  cbv zeta.
  split; [apply hitScore_baseScore, Hv|].
  split.
  { cbn. now rewrite hitScore_baseScore. }
  split.
  { intros Hplay Hall.
    rewrite <- (sumZ_map_ext (hitScore mode settings now clickX clickY)).
    2:{ intros t Ht. apply hitScore_baseScore.
        unfold hitsOf in Ht. apply filter_In in Ht.
        rewrite Forall_forall in Hall. apply Hall, Ht. }
    destruct (handleCanvasClick_hit mode settings now rnd clickX clickY st
                Hplay) as (_ & _ & s1 & (_ & _ & Hscore & _) & Hs).
    rewrite Hs. cbn [recordMiss score]. exact Hscore. }
  split.
  - intros -> Hrt Hz. rewrite Hrt, Hz. cbn [baseScore getScoreMultiplier].
    apply floor_IZR.
    replace (150 - 100 / 20)%Z with 145%Z by reflexivity.
    replace (Z.max 145 25) with 145%Z by reflexivity. lra.
  - intros -> Hrt Hsize Hts Hz. rewrite Hrt, Hz.
    unfold baseScore. rewrite Hsize, Hts.
    replace (250 <? 300)%Z with true by reflexivity.
    cbn [getScoreMultiplier].
    apply floor_IZR.
    rewrite Rmax_right by lra. lra.
Qed.

Lemma C5_awarded_score_witness :
  velocityOk overlapA /\
  hitScore classic defaultSettings 100 100 100 overlapA = 290%Z.
Proof.
  assert (Hv : velocityOk overlapA) by exact I.
  split; [exact Hv|].
  pose proof (C5_awarded_score classic defaultSettings 100 (fun _ => 0) 0
                100 100 overlapA playingEmpty Hv) as H.
  cbv zeta in H. destruct H as (Hs & _ & _ & Hclassic & _).
  rewrite Hs. apply Hclassic.
  - reflexivity.
  - reflexivity.
  - apply getHitZone_center.
    rewrite clickDistance_right; cbn; lra.
Defined.

(** ** Spawn shapes *)

Lemma hypot2_polar (a v : R) :
  0 <= v -> JS.hypot2 (cos a * v) (sin a * v) = v.
Proof.
  intros Hv. unfold JS.hypot2.
  pose proof (sin2_cos2 a) as H. unfold Rsqr in H.
  replace ((cos a * v) ^ 2 + (sin a * v) ^ 2)
    with ((sin a * sin a + cos a * cos a) * v ^ 2) by ring.
  rewrite H, Rmult_1_l. apply sqrt_pow2, Hv.
Qed.

(** C7, as stated, fails on the speed range: with every draw equal to 0.9
    the Speed target moves at 140 px/s, outside [50,100). *)
Lemma C7_speed_range_counterexample :
  let rnd := fun _ : nat => 0.9 in
  let t := newTarget speed defaultSettings canvas 0 rnd in
  (forall k, 0 <= rnd k < 1) /\
  exists vx vy,
    t_velocityX t = Some vx /\
    t_velocityY t = Some vy /\
    JS.hypot2 vx vy = 140 /\
    ~ JS.hypot2 vx vy < 100.
Proof.
  cbv zeta. split; [intros _; lra|].
  exists (cos (0.9 * 2 * PI) * 140), (sin (0.9 * 2 * PI) * 140).
  split; [cbn; do 2 f_equal; lra|].
  split; [cbn; do 2 f_equal; lra|].
  rewrite hypot2_polar by lra. split; lra.
Qed.

(** C7 (amended): for draws in [0,1), a Speed target has diameter
    max(20, settings.targetSize - 15) and a velocity of random heading
    whose magnitude is 50 + 100 * draw, hence in [50,150) px/s; a Classic
    target has a diameter within 5 px of settings.targetSize, no velocity
    and no shrink flag; the spawned target joins the live collection. *)
Theorem C7_spawn_shapes settings bounds now rnd st
  (Hrnd : forall k, 0 <= rnd k < 1) :
  let ts := newTarget speed settings bounds now rnd in
  let tc := newTarget classic settings bounds now rnd in
  t_size ts = Rmax 20 (targetSize settings - 15) /\
  (exists heading v,
      heading = rnd 4%nat * 2 * PI /\
      0 <= heading < 2 * PI /\
      v = 50 + rnd 3%nat * 100 /\
      50 <= v < 150 /\
      t_velocityX ts = Some (cos heading * v) /\
      t_velocityY ts = Some (sin heading * v) /\
      JS.hypot2 (cos heading * v) (sin heading * v) = v) /\
  t_shrinking ts = false /\
  targetSize settings - 5 <= t_size tc < targetSize settings + 5 /\
  t_velocityX tc = None /\
  t_velocityY tc = None /\
  t_shrinking tc = false /\
  (forall mode,
      targets (spawnTarget mode settings bounds now rnd st)
      = targets st ++ [newTarget mode settings bounds now rnd]).
Proof.
  cbv zeta.
  pose proof (Hrnd 3%nat) as H3. pose proof (Hrnd 4%nat) as H4.
  pose proof PI_RGT_0 as Hpi.
  split; [reflexivity|].
  split.
  { exists (rnd 4%nat * 2 * PI), (50 + rnd 3%nat * 100).
    split; [reflexivity|].
    split; [split; nra|].
    split; [reflexivity|].
    split; [lra|].
    split; [reflexivity|].
    split; [reflexivity|].
    apply hypot2_polar. lra. }
  split; [reflexivity|].
  split; [cbn; lra|].
  repeat split.
Qed.

Lemma C7_spawn_shapes_witness :
  (forall k : nat, 0 <= (fun _ : nat => 0.5) k < 1) /\
  t_size (newTarget speed defaultSettings canvas 0 (fun _ => 0.5))
  = Rmax 20 (targetSize defaultSettings - 15).
Proof.
  assert (Hr : forall k : nat, 0 <= (fun _ : nat => 0.5) k < 1)
    by (intros _; lra).
  split; [exact Hr|].
  pose proof (C7_spawn_shapes defaultSettings canvas 0 (fun _ => 0.5)
                playingEmpty Hr) as H.
  cbv zeta in H. destruct H as (Hsize & _).
  exact Hsize.
Defined.

(** ** Shrinking targets *)

Lemma animateTarget_shrinking_size gameMode settings bounds now t :
  t_shrinking t = true ->
  t_size (animateTarget gameMode settings bounds now t)
  = (targetSize settings + 20)
    * Rmax 0.3 (1 - IZR (now - t_createdAt t)
                    / getTargetLifetime gameMode settings * 0.7).
Proof.
  intros Hs. unfold animateTarget. rewrite Hs. reflexivity.
Qed.

(** C8: a Precision target is spawned shrinking with diameter
    baseSize + 20, its lifetime is L = targetDuration + 1000 ms, and the
    animation sets its size at age a to
    (baseSize+20) * max(0.3, 1 - 0.7 a / L): baseSize+20 at age 0,
    0.3 (baseSize+20) at age L, never below 30% of the original. *)
Theorem C8_precision_shrink settings bounds now rnd t
  (Hshrinking : t_shrinking t = true)
  (Hbase : 0 <= targetSize settings + 20)
  (Hlife : 0 < targetSpeed settings + 1000) :
  let base := targetSize settings + 20 in
  let L := targetSpeed settings + 1000 in
  let a := IZR (now - t_createdAt t) in
  let size := t_size (animateTarget precision settings bounds now t) in
  t_size (newTarget precision settings bounds now rnd) = base /\
  t_shrinking (newTarget precision settings bounds now rnd) = true /\
  getTargetLifetime precision settings = L /\
  size = base * Rmax 0.3 (1 - 0.7 * a / L) /\
  (a = 0 -> size = base) /\
  (a = L -> size = 0.3 * base) /\
  0.3 * base <= size.
Proof.
  cbv zeta.
  split; [reflexivity|]. split; [reflexivity|]. split; [reflexivity|].
  rewrite animateTarget_shrinking_size by exact Hshrinking.
  cbn [getTargetLifetime].
  set (a := IZR (now - t_createdAt t)).
  set (L := targetSpeed settings + 1000) in *.
  set (base := targetSize settings + 20) in *.
  replace (1 - a / L * 0.7) with (1 - 0.7 * a / L) by (unfold Rdiv; ring).
  split; [reflexivity|].
  split.
  { intros Ha. rewrite Ha.
    replace (1 - 0.7 * 0 / L) with 1 by (unfold Rdiv; ring).
    rewrite Rmax_right by lra. ring. }
  split.
  { intros Ha. rewrite Ha.
    replace (0.7 * L / L) with 0.7
      by (unfold Rdiv; rewrite Rmult_assoc, Rinv_r by lra; ring).
    replace (1 - 0.7) with 0.3 by lra.
    rewrite Rmax_left by lra. ring. }
  pose proof (Rmax_l 0.3 (1 - 0.7 * a / L)) as Hmax.
  rewrite (Rmult_comm 0.3 base).
  apply Rmult_le_compat_l; assumption.
Qed.

Lemma C8_precision_shrink_witness :
  t_size (animateTarget precision defaultSettings canvas 3000
            (newTarget precision defaultSettings canvas 0 (fun _ => 0.5)))
  = 0.3 * (targetSize defaultSettings + 20).
Proof.
  pose proof (C8_precision_shrink defaultSettings canvas 3000 (fun _ => 0.5)
                (newTarget precision defaultSettings canvas 0 (fun _ => 0.5))
                eq_refl ltac:(cbn; lra) ltac:(cbn; lra)) as H.
  cbv zeta in H. destruct H as (_ & _ & _ & _ & _ & HL & _).
  apply HL. cbn. lra.
Defined.

(** ** Session end and persistence *)

Lemma saveSession_rejects_iff ctx args :
  (exists msg, fst (Convex.saveSession ctx args) = inl msg)
  <-> Convex.auth ctx = None.
Proof.
  unfold Convex.saveSession, Convex.getAuthUserId.
  destruct (Convex.auth ctx) as [user|]; cbn.
  - split; [intros [msg H]; discriminate | discriminate].
  - split; [reflexivity | intros _; eexists; reflexivity].
Qed.

Lemma saveSession_accepts ctx args user :
  Convex.auth ctx = Some user ->
  Convex.saveSession ctx args
  = (inr (List.length (Convex.aimSessions ctx)),
     Convex.mkCtx (Some user)
                  (Convex.aimSessions ctx ++ [Convex.mkDoc user args])).
Proof.
  intros H. unfold Convex.saveSession, Convex.getAuthUserId, Convex.insert.
  rewrite H. reflexivity.
Qed.

Lemma endGame_client gameMode settings callSave w :
  client (endGame gameMode settings callSave w)
  = setTargets (fun _ => []) (setIsPlaying false (client w)).
Proof.
  unfold endGame.
  destruct (callSave (server w) _) as [[msg | id] srv]; reflexivity.
Qed.

Lemma endGameOfStartRender_client gameMode settings callSave w :
  client (endGameOfStartRender gameMode settings callSave w)
  = setTargets (fun _ => []) (setIsPlaying false (client w)).
Proof.
  unfold endGameOfStartRender.
  destruct (callSave (server w) _) as [[msg | id] srv]; reflexivity.
Qed.

(** C9: the mutation rejects a record exactly when the caller has no
    identity (and then stores nothing); and whenever the call made by
    endGame fails, for whatever reason, the session is ended (not playing,
    no live targets), the statistics and the rest of the component state
    are as they were, and the only trace of the failure is one error
    notification.  The same holds when the countdown ends the session and
    the call it makes fails. *)
Theorem C9_persistence_failure gameMode settings callSave w msg srv
  (Hfail :
     callSave (server w) (sessionArgs gameMode settings (gameStats (client w)))
     = (inl msg, srv)) :
  let w' := endGame gameMode settings callSave w in
  (forall ctx args,
      ((exists m, fst (Convex.saveSession ctx args) = inl m)
       <-> Convex.auth ctx = None) /\
      (Convex.auth ctx = None -> snd (Convex.saveSession ctx args) = ctx)) /\
  isPlaying (client w') = false /\
  targets (client w') = [] /\
  gameStats (client w') = gameStats (client w) /\
  hitEffects (client w') = hitEffects (client w) /\
  missEffects (client w') = missEffects (client w) /\
  lastShotAnalysis (client w') = lastShotAnalysis (client w) /\
  timeLeft (client w') = timeLeft (client w) /\
  toasts w' = toasts w ++ [toast_error "Failed to save game session"] /\
  stopGame gameMode settings callSave w = w' /\
  (isPlaying (client w) = true -> (timeLeft (client w) <= 1)%Z ->
   gameStats (client (timerTick gameMode settings callSave w))
   = gameStats (client w) /\
   isPlaying (client (timerTick gameMode settings callSave w)) = false /\
   (forall msg' srv',
       callSave (server w)
                (sessionArgs gameMode settings (startOfGameStats w))
       = (inl msg', srv') ->
       toasts (timerTick gameMode settings callSave w)
       = toasts w ++ [toast_error "Failed to save game session"])).
Proof.
  cbv zeta. split.
  { intros ctx args. split; [apply saveSession_rejects_iff|].
    intros Hnone. unfold Convex.saveSession, Convex.getAuthUserId.
    rewrite Hnone. reflexivity. }
  rewrite endGame_client.
  repeat (split; [reflexivity|]).
  split.
  { unfold endGame. rewrite Hfail. reflexivity. }
  split; [reflexivity|].
  intros Hplay Htime. unfold timerTick. rewrite Hplay. cbn [negb].
  apply Z.leb_le in Htime. rewrite Htime. cbn [client server toasts].
  rewrite endGameOfStartRender_client.
  split; [reflexivity|]. split; [reflexivity|].
  intros msg' srv' Hfail'. unfold endGameOfStartRender.
  rewrite Hfail'. reflexivity.
Qed.

Lemma C9_persistence_failure_witness :
  gameStats
    (client (endGame classic defaultSettings Convex.saveSession
                     (earlyStop signedOut)))
  = zeroStats 0 /\
  toasts (endGame classic defaultSettings Convex.saveSession
                  (earlyStop signedOut))
  = [toast_error "Failed to save game session"].
Proof.
  pose proof (C9_persistence_failure classic defaultSettings
                Convex.saveSession (earlyStop signedOut)
                "Must be logged in to save session" signedOut eq_refl) as H.
  cbv zeta in H.
  destruct H as (_ & _ & _ & Hstats & _ & _ & _ & _ & Htoast & _).
  split; [exact Hstats | exact Htoast].
Defined.

(** C10: whether the session ends by the countdown or by an early stop,
    the record handed to the backend, and stored by it for a signed-in
    caller, has duration = settings.gameTime, whatever time was left. *)
Theorem C10_duration_is_configured gameMode settings w user
  (Hauth : Convex.auth (server w) = Some user) :
  let saved w' := Convex.aimSessions (server w') in
  let duration d := Convex.a_duration (Convex.d_args d) in
  (exists stored,
      saved (stopGame gameMode settings Convex.saveSession w)
      = saved w ++ [stored] /\
      stored
      = Convex.mkDoc user
          (sessionArgs gameMode settings (gameStats (client w))) /\
      duration stored = IZR (gameTime settings)) /\
  (isPlaying (client w) = true -> (timeLeft (client w) <= 1)%Z ->
   exists stored,
     saved (timerTick gameMode settings Convex.saveSession w)
     = saved w ++ [stored] /\
     stored
     = Convex.mkDoc user
         (sessionArgs gameMode settings (startOfGameStats w)) /\
     duration stored = IZR (gameTime settings)) /\
  (isPlaying (client w) = true -> (1 < timeLeft (client w))%Z ->
   saved (timerTick gameMode settings Convex.saveSession w) = saved w).
Proof.
  cbv zeta. split.
  { eexists. split; [|split; reflexivity].
    unfold stopGame, endGame.
    rewrite (saveSession_accepts _ _ user Hauth). reflexivity. }
  split.
  - intros Hplay Htime. eexists. split; [|split; reflexivity].
    unfold timerTick. rewrite Hplay. cbn [negb].
    apply Z.leb_le in Htime. rewrite Htime.
    unfold endGameOfStartRender.
    rewrite (saveSession_accepts _ _ user Hauth). reflexivity.
  - intros Hplay Htime. unfold timerTick. rewrite Hplay. cbn [negb].
    apply Z.leb_gt in Htime. rewrite Htime. reflexivity.
Qed.

Lemma C10_duration_is_configured_witness :
  timeLeft (client (earlyStop (signedIn "u1"%string))) = 25%Z /\
  map (fun d => Convex.a_duration (Convex.d_args d))
      (Convex.aimSessions
         (server (stopGame classic defaultSettings Convex.saveSession
                           (earlyStop (signedIn "u1"%string)))))
  = [30].
Proof.
  split; [reflexivity|].
  pose proof (C10_duration_is_configured classic defaultSettings
                (earlyStop (signedIn "u1"%string)) "u1"%string eq_refl) as H.
  cbv zeta in H. destruct H as ((stored & Hstop & Hrec & _) & _).
  rewrite Hstop, Hrec. reflexivity.
Defined.

(** ** Accounting over a session *)

Lemma expiry_removes_iff (id : R) (ts : list Target) :
  (List.length (filter (fun t => JS.neqb (t_id t) id) ts) <? List.length ts)%nat
  = existsb (fun t => negb (JS.neqb (t_id t) id)) ts.
Proof.
  assert (Hle : forall l : list Target,
             (List.length (filter (fun t => JS.neqb (t_id t) id) l)
              <= List.length l)%nat).
  { induction l as [|t l IH]; cbn; [lia|].
    destruct (JS.neqb (t_id t) id); cbn; lia. }
  induction ts as [|t ts IH]; cbn [filter existsb List.length].
  - reflexivity.
  - destruct (JS.neqb (t_id t) id); cbn [negb orb List.length].
    + exact IH.
    + apply Nat.ltb_lt. specialize (Hle ts). lia.
Qed.

Lemma accounted_click mode settings now rnd clickX clickY st g c :
  accounted mode (gameStats st) g c ->
  accounted mode
    (gameStats (handleCanvasClick mode settings now rnd clickX clickY st))
    (tally (EvClick now rnd clickX clickY) st g)
    (logClick (EvClick now rnd clickX clickY) st c).
Proof.
  intros (Hh & Hm & Ha & Hsum). cbn [tally logClick].
  destruct (isPlaying st) eqn:Hplay; cbn [andb].
  2:{ unfold handleCanvasClick. rewrite Hplay. repeat split; assumption || lia. }
  destruct (handleCanvasClick_hit mode settings now rnd clickX clickY st Hplay)
    as (_ & _ & s1 & (G1 & G2 & _ & G4 & _) & Hs).
  cbv zeta in Hs. rewrite Hs. unfold accounted.
  cbn [recordMiss targetsHit targetsMissed totalShots].
  rewrite G1, G2, G4.
  assert (Hpen : (1 <= penalty mode)%Z) by (destruct mode; cbn; lia).
  assert (Hn : (0 <= Z.of_nat (List.length (hitsOf clickX clickY (targets st))))%Z)
    by lia.
  destruct (negb (existsb (covers clickX clickY) (targets st)));
    cbn [passiveExpiries activeMisses clicksPlayed];
    repeat split; lia.
Qed.

Lemma accounted_expire mode id st g c :
  accounted mode (gameStats st) g c ->
  accounted mode (gameStats (expireTarget id st)) (tally (EvExpire id) st g)
            (logClick (EvExpire id) st c).
Proof.
  intros (Hh & Hm & Ha & Hsum). unfold expireTarget. cbn [tally logClick].
  rewrite expiry_removes_iff.
  destruct (existsb _ (targets st)); unfold accounted; cbn;
    repeat split; lia.
Qed.

Lemma step_accounted mode settings callSave e w g c :
  accounted mode (gameStats (client w)) g c ->
  accounted mode (gameStats (client (step mode settings callSave e w)))
            (tally e (client w) g) (logClick e (client w) c).
Proof.
  intros H. destruct e; cbn [step onClient client].
  - apply accounted_click, H.
  - apply accounted_expire, H.
  - unfold spawnTick. destruct (negb _); [exact H|].
    destruct (_ <? _)%nat; exact H.
  - unfold animationTick. destruct (negb _); exact H.
  - exact H.
  - unfold timerTick. destruct (negb _); [exact H|].
    destruct (_ <=? _)%Z; cbn [client];
      [rewrite endGameOfStartRender_client|]; exact H.
  - unfold stopGame. rewrite endGame_client. exact H.
Qed.

Lemma run_accounted mode settings callSave evs : forall w g c,
  accounted mode (gameStats (client w)) g c ->
  accounted mode
    (gameStats (client (fst (run mode settings callSave evs w g))))
    (snd (run mode settings callSave evs w g))
    (clickLog mode settings callSave evs w c).
Proof.
  induction evs as [|e evs IH]; intros w g c H; cbn [run clickLog].
  - exact H.
  - apply IH, step_accounted, H.
Qed.

Lemma accuracyOf_range (s : GameStats) :
  (0 <= targetsHit s)%Z -> (0 <= targetsMissed s)%Z ->
  0 <= accuracyOf s <= 100.
Proof.
  intros Hh Hm. unfold accuracyOf.
  destruct (0 <? targetsHit s + targetsMissed s)%Z eqn:E; [|lra].
  apply Z.ltb_lt in E.
  assert (Ht : 0 < IZR (targetsHit s + targetsMissed s))
    by (apply IZR_lt; exact E).
  assert (H0 : 0 <= IZR (targetsHit s)) by (apply IZR_le; exact Hh).
  assert (H1 : IZR (targetsHit s) <= IZR (targetsHit s + targetsMissed s))
    by (apply IZR_le; lia).
  set (h := IZR (targetsHit s)) in *.
  set (t := IZR (targetsHit s + targetsMissed s)) in *.
  assert (Hq : 0 <= h / t <= 1).
  { split.
    - apply Rmult_le_reg_r with t; [exact Ht|].
      unfold Rdiv. rewrite Rmult_assoc, Rinv_l by lra. lra.
    - apply Rmult_le_reg_r with t; [exact Ht|].
      unfold Rdiv. rewrite Rmult_assoc, Rinv_l by lra. lra. }
  lra.
Qed.

Lemma run_nil mode settings callSave w g :
  run mode settings callSave [] w g = (w, g).
Proof. reflexivity. Qed.

Lemma run_cons mode settings callSave e evs w g :
  run mode settings callSave (e :: evs) w g
  = run mode settings callSave evs
        (step mode settings callSave e w) (tally e (client w) g).
Proof. reflexivity. Qed.

(** C3, as stated, fails in Precision mode: after one passive expiry and
    one click that lands on nothing, targetsHit + targetsMissed is 3 while
    totalShots + passive expiries is 2. *)
Lemma C3_precision_counterexample :
  let r :=
    session precision defaultSettings Convex.saveSession canvas 0
            (fun _ => 0.5)
            [EvExpire 0.5; EvClick 1000 (fun _ => 0.5) 400 300; EvStop]
            (idleWorld signedOut) in
  let s := gameStats (client (fst r)) in
  targetsHit s = 0%Z /\
  targetsMissed s = 3%Z /\
  totalShots s = 1%Z /\
  passiveExpiries (snd r) = 1%Z /\
  isPlaying (client (fst r)) = false /\
  (targetsHit s + targetsMissed s <> totalShots s + passiveExpiries (snd r))%Z.
Proof.
  cbv zeta. unfold session.
  set (rnd := fun _ : nat => 0.5).
  set (t0 := newTarget precision defaultSettings canvas 0 rnd).
  change (onClient (startGame precision defaultSettings canvas 0 rnd)
                   (idleWorld signedOut))
    with (mkWorld (playingWith [t0]) signedOut []).
  assert (Hid : JS.neqb (t_id t0) 0.5 = false)
    by (apply neqb_false_iff; unfold t0, rnd; cbn; lra).
  clearbody t0.
  assert (S1 : step precision defaultSettings Convex.saveSession (EvExpire 0.5)
                    (mkWorld (playingWith [t0]) signedOut [])
               = mkWorld (setGameStats recordExpiry playingEmpty) signedOut []).
  { unfold step, onClient, expireTarget.
    cbn [client server toasts playingWith targets filter].
    rewrite Hid. reflexivity. }
  assert (T1 : tally (EvExpire 0.5) (playingWith [t0]) noTally
               = mkTally 1 0 []).
  { cbn [tally playingWith targets existsb]. rewrite Hid. reflexivity. }
  rewrite !run_cons, run_nil. cbn [fst snd client].
  rewrite S1, T1. cbn [client].
  unfold step, onClient. cbn [client server toasts tally].
  rewrite handleCanvasClick_no_target by reflexivity.
  unfold stopGame. rewrite endGame_client.
  cbn. repeat split. lia.
Qed.

(** C3 (amended): at every point of a session, hence at its end,
    targetsHit + targetsMissed = totalShots + passive expiries in Classic
    and Speed mode.  In Precision mode the equality fails by design: a
    click that lands on no target adds 2 to targetsMissed and 1 to
    totalShots, so the sum is at least totalShots + passive expiries plus
    the number of such clicks.  In every mode the accuracy computed at
    session end lies in [0,100], for the record of the Stop button as for
    the record of the countdown. *)
Theorem C3_session_accounting mode settings callSave bounds now rnd evs w :
  let r := session mode settings callSave bounds now rnd evs w in
  let s := gameStats (client (fst r)) in
  let g := snd r in
  (mode <> precision ->
   (targetsHit s + targetsMissed s = totalShots s + passiveExpiries g)%Z) /\
  (totalShots s + passiveExpiries g
   + match mode with precision => activeMisses g | _ => 0 end
   <= targetsHit s + targetsMissed s)%Z /\
  (forall now' rnd' x y st,
      isPlaying st = true ->
      existsb (covers x y) (targets st) = false ->
      let st' := handleCanvasClick precision settings now' rnd' x y st in
      targetsMissed (gameStats st') = (targetsMissed (gameStats st) + 2)%Z /\
      totalShots (gameStats st') = (totalShots (gameStats st) + 1)%Z /\
      targetsHit (gameStats st') = targetsHit (gameStats st)) /\
  0 <= accuracyOf s <= 100 /\
  Convex.a_accuracy (sessionArgs mode settings s) = accuracyOf s /\
  0 <= Convex.a_accuracy (sessionArgs mode settings (startOfGameStats (fst r)))
  <= 100.
Proof.
  cbv zeta. unfold session.
  pose proof (run_accounted mode settings callSave evs
                (onClient (startGame mode settings bounds now rnd) w) noTally
                noClicks) as H.
  destruct H as (Hh & Hm & Ha & Hsum).
  { unfold accounted. cbn. repeat split; lia. }
  unfold penalty in Hsum.
  split; [intros Hmode; destruct mode; try lia; congruence|].
  split; [destruct mode; lia|].
  split.
  { intros now' rnd' x y st Hplay Hnone.
    rewrite handleCanvasClick_miss by assumption. cbn. repeat split. }
  split; [apply accuracyOf_range; assumption|].
  split; [reflexivity|].
  cbn [sessionArgs Convex.a_accuracy]. apply accuracyOf_range; cbn; lia.
Qed.

(** ** The running mean of miss distances *)

Lemma analyzeShot_single (x y : R) (t : Target) :
  sa_distance (analyzeShot x y [t]) = clickDistance x y t.
Proof.
  destruct (analyzeShot_nearest x y [t] ltac:(discriminate))
    as (nearest & Hin & _ & Hd & _).
  destruct Hin as [<- | []]. exact Hd.
Qed.

(** C2 on a concrete Classic session: the first target expires untouched,
    a second one spawns at (400,300) with diameter 50, and a click 40 px
    from its centre misses.  The only miss distance is 40, so the mean is
    40, but the stored averageMissDistance is (0 * 1 + 40) / (1 + 1) = 20:
    the update divides by targetsMissed, which the expiry had already
    raised. *)
Theorem C2_running_mean_failing_input :
  let rnd := fun _ : nat => 0.5 in
  let r :=
    session classic defaultSettings Convex.saveSession canvas 0 rnd
            [EvExpire 0.5; EvSpawnTick canvas 2000 rnd;
             EvClick 2500 rnd 440 300]
            (idleWorld signedOut) in
  missDistances (snd r) = [40] /\
  mean (missDistances (snd r)) = 40 /\
  averageMissDistance (gameStats (client (fst r))) = 20.
Proof.
  cbv zeta. unfold session.
  set (rnd := fun _ : nat => 0.5).
  set (t0 := newTarget classic defaultSettings canvas 0 rnd).
  set (t1 := newTarget classic defaultSettings canvas 2000 rnd).
  change (onClient (startGame classic defaultSettings canvas 0 rnd)
                   (idleWorld signedOut))
    with (mkWorld (playingWith [t0]) signedOut []).
  assert (Hid : JS.neqb (t_id t0) 0.5 = false)
    by (apply neqb_false_iff; unfold t0, rnd; cbn; lra).
  assert (Hd : clickDistance 440 300 t1 = 40).
  { rewrite clickDistance_right; unfold t1, rnd; cbn; lra. }
  assert (Hsize : t_size t1 = 50) by (unfold t1, rnd; cbn; lra).
  assert (S2 : step classic defaultSettings Convex.saveSession
                    (EvSpawnTick canvas 2000 rnd)
                    (mkWorld (setGameStats recordExpiry playingEmpty)
                             signedOut [])
               = mkWorld (setTargets (fun _ => [t1])
                            (setGameStats recordExpiry playingEmpty))
                         signedOut [])
    by reflexivity.
  clearbody t0 t1.
  assert (S1 : step classic defaultSettings Convex.saveSession (EvExpire 0.5)
                    (mkWorld (playingWith [t0]) signedOut [])
               = mkWorld (setGameStats recordExpiry playingEmpty) signedOut []).
  { unfold step, onClient, expireTarget.
    cbn [client server toasts playingWith targets filter].
    rewrite Hid. reflexivity. }
  assert (T1 : tally (EvExpire 0.5) (playingWith [t0]) noTally
               = mkTally 1 0 []).
  { cbn [tally playingWith targets existsb]. rewrite Hid. reflexivity. }
  assert (Hmiss : existsb (covers 440 300) [t1] = false).
  { cbn [existsb]. rewrite (proj2 (covers_false_iff 440 300 t1)).
    - reflexivity.
    - rewrite Hd, Hsize. lra. }
  rewrite !run_cons, run_nil. cbn [fst snd client].
  rewrite S1, T1. cbn [client].
  rewrite S2. cbn [client].
  unfold step, onClient. cbn [client server toasts tally].
  rewrite handleCanvasClick_miss by (try reflexivity; exact Hmiss).
  cbn [setTargets setGameStats targets isPlaying playingEmpty andb negb].
  rewrite Hmiss. cbn [negb missDistances app].
  assert (Hshot : sa_distance (analyzeShot 440 300 [t1]) = 40)
    by (rewrite analyzeShot_single; exact Hd).
  rewrite Hshot.
  split; [reflexivity|].
  split.
  - unfold mean. cbn. lra.
  - cbn -[analyzeShot]. rewrite Hshot. lra.
Qed.

Lemma sum_snoc (ds : list R) (d : R) :
  fold_right Rplus 0 (ds ++ [d]) = fold_right Rplus 0 ds + d.
Proof.
  induction ds as [|x ds IH]; cbn; [lra | rewrite IH; lra].
Qed.

Lemma meanKept_click mode settings now rnd clickX clickY st g c :
  mode <> precision ->
  meanKept (gameStats st) g c ->
  meanKept
    (gameStats (handleCanvasClick mode settings now rnd clickX clickY st))
    (tally (EvClick now rnd clickX clickY) st g)
    (logClick (EvClick now rnd clickX clickY) st c).
Proof.
  intros Hmode (Hp & Hk). cbn [tally logClick].
  destruct (isPlaying st) eqn:Hplay; cbn [andb].
  2:{ unfold handleCanvasClick. rewrite Hplay. split; assumption. }
  destruct (handleCanvasClick_hit mode settings now rnd clickX clickY st Hplay)
    as (_ & _ & s1 & (_ & _ & _ & G4 & _ & _ & G7) & Hs).
  cbv zeta in Hs. rewrite Hs.
  assert (Hpassive :
    passiveExpiries
      (if negb (existsb (covers clickX clickY) (targets st))
       then mkTally (passiveExpiries g) (activeMisses g + 1)
                    (missDistances g
                     ++ [sa_distance (analyzeShot clickX clickY (targets st))])
       else g) = passiveExpiries g)
    by (destruct (negb _); reflexivity).
  split; [rewrite Hpassive; exact Hp|].
  rewrite Hpassive. intros H0. destruct (Hk H0) as [Hm Havg].
  cbn [recordMiss targetsMissed averageMissDistance analysedDistances].
  rewrite G4, G7.
  set (d := sa_distance (analyzeShot clickX clickY (targets st))).
  set (ds := analysedDistances c) in *.
  rewrite length_app, sum_snoc. cbn [List.length].
  assert (Hpen : penalty mode = 1%Z)
    by (unfold penalty; destruct mode; congruence).
  rewrite Hpen, Hm. split; [lia|].
  rewrite <- INR_IZR_INZ.
  replace (List.length ds + 1)%nat with (S (List.length ds)) by lia.
  rewrite S_INR.
  pose proof (pos_INR (List.length ds)) as Hn.
  rewrite <- Havg. field. lra.
Qed.

Lemma meanKept_expire id st g c :
  meanKept (gameStats st) g c ->
  meanKept (gameStats (expireTarget id st)) (tally (EvExpire id) st g)
           (logClick (EvExpire id) st c).
Proof.
  intros (Hp & Hk). unfold expireTarget. cbn [tally logClick].
  rewrite expiry_removes_iff.
  destruct (existsb _ (targets st)).
  - split; cbn; [lia | intros H0; lia].
  - split; assumption.
Qed.

Lemma step_meanKept mode settings callSave e w g c :
  mode <> precision ->
  meanKept (gameStats (client w)) g c ->
  meanKept (gameStats (client (step mode settings callSave e w)))
           (tally e (client w) g) (logClick e (client w) c).
Proof.
  intros Hmode H. destruct e; cbn [step onClient client].
  - apply meanKept_click; assumption.
  - apply meanKept_expire, H.
  - unfold spawnTick. destruct (negb _); [exact H|].
    destruct (_ <? _)%nat; exact H.
  - unfold animationTick. destruct (negb _); exact H.
  - exact H.
  - unfold timerTick. destruct (negb _); [exact H|].
    destruct (_ <=? _)%Z; cbn [client];
      [rewrite endGameOfStartRender_client|]; exact H.
  - unfold stopGame. rewrite endGame_client. exact H.
Qed.

Lemma run_meanKept mode settings callSave evs : forall w g c,
  mode <> precision ->
  meanKept (gameStats (client w)) g c ->
  meanKept
    (gameStats (client (fst (run mode settings callSave evs w g))))
    (snd (run mode settings callSave evs w g))
    (clickLog mode settings callSave evs w c).
Proof.
  induction evs as [|e evs IH]; intros w g c Hmode H; cbn [run clickLog].
  - exact H.
  - apply IH; [exact Hmode | apply step_meanKept; assumption].
Qed.

(** X25.  What the running mean is a mean of: in Classic and Speed mode,
    as long as no target has expired untouched, averageMissDistance is the
    arithmetic mean of the distances analysed for all the clicks made
    while playing, those that hit a target included. *)
Lemma running_mean_undisturbed mode settings callSave bounds now rnd evs w :
  mode <> precision ->
  let r := session mode settings callSave bounds now rnd evs w in
  let c := sessionClicks mode settings callSave bounds now rnd evs w in
  passiveExpiries (snd r) = 0%Z ->
  analysedDistances c <> [] ->
  averageMissDistance (gameStats (client (fst r)))
  = mean (analysedDistances c).
Proof.
  intros Hmode. cbv zeta. unfold session, sessionClicks. intros H0 Hne.
  destruct (run_meanKept mode settings callSave evs
              (onClient (startGame mode settings bounds now rnd) w) noTally
              noClicks Hmode) as (_ & Hk).
  { split; cbn; [lia|]. intros _. split; [reflexivity | lra]. }
  destruct (Hk H0) as [_ Havg].
  unfold mean. rewrite <- Havg.
  set (ds := analysedDistances _) in *.
  assert (Hn : 0 < INR (List.length ds)).
  { apply lt_0_INR. destruct ds; [congruence | cbn; lia]. }
  field. lra.
Qed.

(** ** Live targets keep a well-formed velocity *)

Lemma handleCanvasClick_targets mode settings now rnd clickX clickY st :
  isPlaying st = true ->
  targets (handleCanvasClick mode settings now rnd clickX clickY st)
  = filter (fun t => negb (covers clickX clickY t)) (targets st).
Proof.
  intros Hplay.
  apply (handleCanvasClick_hit mode settings now rnd clickX clickY st Hplay).
Qed.

Lemma Forall_filter_keep {A} (P : A -> Prop) (f : A -> bool) (l : list A) :
  Forall P l -> Forall P (filter f l).
Proof.
  intros H. apply Forall_forall. intros a Ha.
  apply filter_In in Ha. rewrite Forall_forall in H. apply H, Ha.
Qed.

Lemma step_velocityOk mode settings callSave e w :
  drawsOk e ->
  Forall velocityOk (targets (client w)) ->
  Forall velocityOk (targets (client (step mode settings callSave e w))).
Proof.
  intros Hdraws H. destruct e; cbn [step onClient client drawsOk] in *.
  - destruct (isPlaying (client w)) eqn:Hplay.
    + rewrite handleCanvasClick_targets by exact Hplay.
      apply Forall_filter_keep, H.
    + unfold handleCanvasClick. rewrite Hplay. exact H.
  - unfold expireTarget. cbn. apply Forall_filter_keep, H.
  - unfold spawnTick. destruct (negb _); [exact H|].
    destruct (_ <? _)%nat; [|exact H].
    cbn. apply Forall_app. split; [exact H|].
    constructor; [|constructor].
    apply newTarget_velocityOk, Hdraws.
  - unfold animationTick. destruct (negb _); [exact H|].
    cbn. apply Forall_map.
    apply Forall_impl with (P := velocityOk); [|exact H].
    intros t. apply animateTarget_velocityOk.
  - exact H.
  - unfold timerTick. destruct (negb _); [exact H|].
    destruct (_ <=? _)%Z; cbn [client]; [|exact H].
    rewrite endGameOfStartRender_client. constructor.
  - unfold stopGame. rewrite endGame_client. constructor.
Qed.

(** X26.  Every live target of a session has a velocity that is absent or
    non-zero, so the speed bonus is paid exactly to moving targets. *)
Lemma session_velocityOk mode settings callSave bounds now rnd evs w :
  (forall k : nat, 0 <= rnd k < 1) ->
  Forall drawsOk evs ->
  Forall velocityOk
    (targets
       (client (fst (session mode settings callSave bounds now rnd evs w)))).
Proof.
  intros Hrnd Hevs. unfold session.
  assert (Hstart :
    Forall velocityOk
      (targets (client (onClient (startGame mode settings bounds now rnd) w)))).
  { cbn. constructor; [|constructor]. apply newTarget_velocityOk, Hrnd. }
  revert Hstart.
  generalize (onClient (startGame mode settings bounds now rnd) w) noTally.
  induction Hevs as [|e evs He Hrest IH]; intros w0 g0 H0; cbn [run].
  - exact H0.
  - apply IH, step_velocityOk; assumption.
Qed.

(** * Further properties of the engine *)

(** ** Bearings and compass directions *)

Lemma rem_of_nonneg (x m : R) :
  0 < m -> 0 <= x ->
  0 <= JS.rem x m < m /\ exists k : Z, JS.rem x m = x - m * IZR k.
Proof.
  intros Hm Hx. unfold JS.rem, JS.trunc.
  assert (Hq : 0 <= x / m).
  { apply Rmult_le_reg_r with m; [exact Hm|].
    unfold Rdiv. rewrite Rmult_assoc, Rinv_l by lra. lra. }
  rewrite (proj2 (leb_true_iff 0 (x / m)) Hq).
  pose proof (Zfloor_bound (x / m)) as [Hlo Hhi].
  assert (Hx' : x = m * (x / m)) by (field; lra).
  split; [|eexists; reflexivity].
  split; nra.
Qed.

Lemma rem_of_neg (x m : R) :
  0 < m -> x < 0 ->
  - m < JS.rem x m <= 0 /\ exists k : Z, JS.rem x m = x - m * IZR k.
Proof.
  intros Hm Hx. unfold JS.rem, JS.trunc.
  assert (Hq : x / m < 0).
  { apply Rmult_lt_reg_r with m; [exact Hm|].
    unfold Rdiv. rewrite Rmult_assoc, Rinv_l by lra. lra. }
  rewrite (proj2 (leb_false_iff 0 (x / m)) Hq).
  pose proof (Zceil_bound (x / m)) as [Hlo Hhi].
  assert (Hx' : x = m * (x / m)) by (field; lra).
  split; [|eexists; reflexivity].
  split; nra.
Qed.

(** The angle normalization of [getDirectionText] lands in [0,360) and
    moves the angle by whole turns only. *)
Lemma normalizedAngle_range (angle : R) :
  exists k : Z,
    JS.rem (JS.rem angle 360 + 360) 360 = angle - 360 * IZR k /\
    0 <= angle - 360 * IZR k < 360.
Proof.
  assert (H1 : - 360 < JS.rem angle 360 < 360
               /\ exists k, JS.rem angle 360 = angle - 360 * IZR k).
  { destruct (Rle_lt_dec 0 angle) as [Hpos | Hneg].
    - destruct (rem_of_nonneg angle 360 ltac:(lra) Hpos) as [Hr Hk].
      split; [lra | exact Hk].
    - destruct (rem_of_neg angle 360 ltac:(lra) Hneg) as [Hr Hk].
      split; [lra | exact Hk]. }
  destruct H1 as [Hr [k1 Hk1]].
  destruct (rem_of_nonneg (JS.rem angle 360 + 360) 360 ltac:(lra) ltac:(lra))
    as [Hn [k2 Hk2]].
  exists (k1 + k2 - 1)%Z.
  assert (Heq : JS.rem (JS.rem angle 360 + 360) 360
                = angle - 360 * IZR (k1 + k2 - 1)).
  { rewrite Hk2, Hk1, minus_IZR, plus_IZR. lra. }
  split; [exact Heq | rewrite <- Heq; exact Hn].
Qed.

Lemma getDirectionText_normalized (angle : R) :
  exists k : Z,
    0 <= angle - 360 * IZR k < 360 /\
    getDirectionText angle = octantOf (angle - 360 * IZR k).
Proof.
  destruct (normalizedAngle_range angle) as [k [Heq Hn]].
  exists k. cbv zeta. split; [exact Hn|].
  unfold getDirectionText. rewrite Heq.
  set (n := angle - 360 * IZR k) in *.
  unfold octantOf, JS.geb.
  destruct (Rle_dec 337.5 n); [js_compare; reflexivity|].
  destruct (Rlt_dec n 22.5); [js_compare; reflexivity|].
  destruct (Rlt_dec n 67.5); [js_compare; reflexivity|].
  destruct (Rlt_dec n 112.5); [js_compare; reflexivity|].
  destruct (Rlt_dec n 157.5); [js_compare; reflexivity|].
  destruct (Rlt_dec n 202.5); [js_compare; reflexivity|].
  destruct (Rlt_dec n 247.5); [js_compare; reflexivity|].
  destruct (Rlt_dec n 292.5); js_compare; reflexivity.
Qed.

(** X1: for every angle, [getDirectionText] names the octant of the angle
    reduced to [0,360) by whole turns; negative angles included. *)
Theorem getDirectionText_octant (angle : R) :
  exists k : Z,
    let n := angle - 360 * IZR k in
    0 <= n < 360 /\ getDirectionText angle = octantOf n.
Proof.
  destruct (getDirectionText_normalized angle) as [k Hk].
  exists k. exact Hk.
Qed.

Lemma atan2_range (y x : R) : - PI < JS.atan2 y x <= PI.
Proof.
  pose proof PI_RGT_0 as Hpi.
  pose proof (atan_bound (y / x)) as [Hlo Hhi].
  unfold JS.atan2.
  destruct (JS.ltb 0 x) eqn:Ex; [lra|].
  apply ltb_false_iff in Ex.
  destruct (JS.ltb x 0) eqn:Ex'.
  - apply ltb_true_iff in Ex'.
    assert (Hinv : / x < 0) by (apply Rinv_lt_0_compat; exact Ex').
    destruct (JS.leb 0 y) eqn:Ey.
    + apply leb_true_iff in Ey.
      assert (Hq : y / x <= 0) by (unfold Rdiv; nra).
      assert (Ha : atan (y / x) <= 0).
      { destruct Hq as [Hq | Hq].
        - apply atan_increasing in Hq. rewrite atan_0 in Hq. lra.
        - rewrite Hq, atan_0. lra. }
      lra.
    + apply leb_false_iff in Ey.
      assert (Hq : 0 < y / x) by (unfold Rdiv; nra).
      apply atan_increasing in Hq. rewrite atan_0 in Hq. lra.
  - destruct (JS.ltb 0 y); [lra|].
    destruct (JS.ltb y 0); lra.
Qed.

(** X2: the bearing reported by [analyzeShot] is always between -180 and
    180 degrees, both ends included, whatever the click and the targets. *)
Theorem analyzeShot_angle_range (clickX clickY : R) (ts : list Target) :
  - 180 <= sa_angle (analyzeShot clickX clickY ts) <= 180.
Proof.
  pose proof PI_RGT_0 as Hpi.
  assert (Hdeg : forall a, - PI < a <= PI -> - 180 <= a * 180 / PI <= 180).
  { intros a [Hlo Hhi]. split.
    - apply Rmult_le_reg_r with PI; [exact Hpi|].
      unfold Rdiv. rewrite Rmult_assoc, Rinv_l by lra. lra.
    - apply Rmult_le_reg_r with PI; [exact Hpi|].
      unfold Rdiv. rewrite Rmult_assoc, Rinv_l by lra. lra. }
  unfold analyzeShot. destruct ts as [|first rest]; [cbn; lra|].
  destruct (findClosest clickX clickY first (first :: rest)) as [c m].
  destruct (JS.leb m (t_size c / 2)); cbn [sa_angle];
    apply Hdeg, atan2_range.
Qed.

Lemma getDirectionText_first_turn (a : R) :
  0 <= a < 360 -> getDirectionText a = octantOf a.
Proof.
  intros Ha. destruct (getDirectionText_normalized a) as [k [Hn Hk]].
  assert (k = 0%Z) as ->.
  { assert (H1 : IZR k < IZR 1) by (change (IZR 1) with 1; lra).
    assert (H2 : IZR (-1) < IZR k) by (change (IZR (-1)) with (-1); lra).
    apply lt_IZR in H1, H2. lia. }
  rewrite Hk. f_equal. change (IZR 0) with 0. lra.
Qed.

Lemma getDirectionText_negative_turn (a : R) :
  - 360 <= a < 0 -> getDirectionText a = octantOf (a + 360).
Proof.
  intros Ha. destruct (getDirectionText_normalized a) as [k [Hn Hk]].
  assert (k = (-1)%Z) as ->.
  { assert (H1 : IZR k < IZR 0) by (change (IZR 0) with 0; lra).
    assert (H2 : IZR (-2) < IZR k) by (change (IZR (-2)) with (-2); lra).
    apply lt_IZR in H1, H2. lia. }
  rewrite Hk. f_equal. change (IZR (-1)) with (-1). lra.
Qed.

Lemma octantOf_values :
  octantOf 0 = "right"%string /\ octantOf 90 = "bottom"%string /\
  octantOf 180 = "left"%string /\ octantOf 270 = "top"%string.
Proof.
  unfold octantOf.
  repeat split;
    repeat (match goal with
            | |- context [Rle_dec ?a ?b] => destruct (Rle_dec a b); try lra
            | |- context [Rlt_dec ?a ?b] => destruct (Rlt_dec a b); try lra
            end); reflexivity.
Qed.

Lemma analyzeShot_single_angle (x y : R) (t : Target) :
  sa_angle (analyzeShot x y [t]) = JS.atan2 (y - t_y t) (x - t_x t) * 180 / PI.
Proof.
  unfold analyzeShot, findClosest. cbn [fold_left].
  unfold closerOf. cbn [snd].
  rewrite (proj2 (ltb_false_iff _ _) (Rle_refl (clickDistance x y t))).
  destruct (JS.leb _ _); reflexivity.
Qed.

(** X3: the compass word of a miss follows the screen, whose y axis points
    down: against a single live target, a click level with the centre and
    to its right reads "right", one straight below reads "bottom", one
    level and to the left reads "left", one straight above reads "top". *)
Theorem miss_direction_follows_screen (x y : R) (t : Target) :
  let word := getDirectionText (sa_angle (analyzeShot x y [t])) in
  (y = t_y t -> t_x t < x -> word = "right"%string) /\
  (x = t_x t -> t_y t < y -> word = "bottom"%string) /\
  (y = t_y t -> x < t_x t -> word = "left"%string) /\
  (x = t_x t -> y < t_y t -> word = "top"%string).
Proof.
  cbv zeta. rewrite analyzeShot_single_angle.
  pose proof PI_RGT_0 as Hpi.
  destruct octantOf_values as (O0 & O90 & O180 & O270).
  unfold JS.atan2.
  split; [|split; [|split]].
  - intros -> Hx. replace (t_y t - t_y t) with 0 by ring.
    js_compare. unfold Rdiv at 2. rewrite Rmult_0_l, atan_0.
    replace (0 * 180 / PI) with 0 by (unfold Rdiv; ring).
    rewrite getDirectionText_first_turn by lra. exact O0.
  - intros -> Hy. replace (t_x t - t_x t) with 0 by ring.
    js_compare.
    replace (PI / 2 * 180 / PI) with 90 by (field; lra).
    rewrite getDirectionText_first_turn by lra. exact O90.
  - intros -> Hx. replace (t_y t - t_y t) with 0 by ring.
    js_compare. unfold Rdiv at 2. rewrite Rmult_0_l, atan_0.
    replace ((0 + PI) * 180 / PI) with 180 by (field; lra).
    rewrite getDirectionText_first_turn by lra. exact O180.
  - intros -> Hy. replace (t_x t - t_x t) with 0 by ring.
    js_compare.
    replace (- PI / 2 * 180 / PI) with (- 90) by (field; lra).
    rewrite getDirectionText_negative_turn by lra.
    replace (- 90 + 360) with 270 by lra. exact O270.
Qed.

(** ** Miss classification and its agreement with the hit test *)

Lemma analyzeShot_classified (x y : R) (ts : list Target) :
  ts <> [] ->
  exists nearest,
    In nearest ts /\
    (forall t, In t ts -> clickDistance x y nearest <= clickDistance x y t) /\
    sa_distance (analyzeShot x y ts) = clickDistance x y nearest /\
    sa_direction (analyzeShot x y ts)
    = if JS.leb (clickDistance x y nearest) (t_size nearest / 2) then hit
      else if JS.gtb (clickDistance x y nearest) (t_size nearest / 2 * 1.5)
           then overshoot else undershoot.
Proof.
  destruct ts as [|first rest]; [congruence | intros _].
  pose proof (findClosest_nearest x y first rest) as H. cbv zeta in H.
  unfold analyzeShot.
  destruct (findClosest x y first (first :: rest)) as [c m].
  cbn [fst snd] in H. destruct H as (Hin & Hm & Hmin).
  exists c. subst m. split; [exact Hin|]. split; [exact Hmin|].
  destruct (JS.leb (clickDistance x y c) (t_size c / 2)); cbn; auto.
Qed.

(** X4: against targets of positive size, the analysis calls a click a
    hit when it is within the nearest target's radius r, an undershoot
    when r < d <= 1.5 r and an overshoot when d > 1.5 r, d being the
    distance to the nearest target, which is also the reported distance. *)
Theorem analyzeShot_miss_classes (x y : R) (ts : list Target)
  (Hlive : ts <> []) (Hsize : Forall (fun t => 0 < t_size t) ts) :
  exists nearest,
    In nearest ts /\
    (forall t, In t ts -> clickDistance x y nearest <= clickDistance x y t) /\
    let d := clickDistance x y nearest in
    let r := t_size nearest / 2 in
    let shot := analyzeShot x y ts in
    sa_distance shot = d /\
    (sa_direction shot = hit <-> d <= r) /\
    (sa_direction shot = undershoot <-> r < d <= 1.5 * r) /\
    (sa_direction shot = overshoot <-> 1.5 * r < d).
Proof.
  destruct (analyzeShot_classified x y ts Hlive)
    as (nearest & Hin & Hmin & Hd & Hdir).
  exists nearest. split; [exact Hin|]. split; [exact Hmin|].
  cbv zeta. split; [exact Hd|].
  rewrite Forall_forall in Hsize. specialize (Hsize nearest Hin).
  rewrite Hdir. unfold JS.gtb.
  destruct (JS.leb _ _) eqn:E1.
  - apply leb_true_iff in E1.
    repeat split; intros; try discriminate; lra.
  - apply leb_false_iff in E1.
    destruct (JS.ltb _ _) eqn:E2.
    + apply ltb_true_iff in E2.
      repeat split; intros; try discriminate; lra.
    + apply ltb_false_iff in E2.
      repeat split; intros; try discriminate; lra.
Qed.

Lemma analyzeShot_miss_classes_witness :
  sa_direction (analyzeShot 123 100 [smallNear; largeFar]) = undershoot.
Proof.
  destruct (analyzeShot_miss_classes 123 100 [smallNear; largeFar]
              ltac:(discriminate)
              ltac:(repeat constructor; cbn; lra))
    as (nearest & Hin & Hmin & _ & _ & Hunder & _).
  cbv zeta in Hunder. apply Hunder.
  destruct small_large_distances as [dS dL].
  destruct Hin as [<- | [<- | []]].
  - rewrite dS. cbn. lra.
  - specialize (Hmin smallNear (or_introl eq_refl)).
    rewrite dS, dL in Hmin. lra.
Defined.

(** X5: when all live targets have the same diameter (Speed mode, or a
    single Precision target), the click handler and the shot analysis
    agree: the click lands on some target exactly when the analysis says
    'hit'. *)
Theorem equal_sizes_analysis_agrees (x y size : R) (ts : list Target)
  (Hlive : ts <> []) (Hsame : Forall (fun t => t_size t = size) ts) :
  existsb (covers x y) ts = true
  <-> sa_direction (analyzeShot x y ts) = hit.
Proof.
  destruct (analyzeShot_nearest x y ts Hlive)
    as (nearest & Hin & Hmin & _ & Hhit).
  rewrite Forall_forall in Hsame.
  rewrite Hhit, existsb_exists. split.
  - intros (t & Ht & Hc). apply covers_true_iff in Hc.
    specialize (Hmin t Ht).
    rewrite (Hsame nearest Hin). rewrite (Hsame t Ht) in Hc. lra.
  - intros Hn. exists nearest. split; [exact Hin|].
    apply covers_true_iff, Hn.
Qed.

Lemma equal_sizes_analysis_agrees_witness :
  existsb (covers 105 100) [overlapA; overlapB] = true
  <-> sa_direction (analyzeShot 105 100 [overlapA; overlapB]) = hit.
Proof.
  apply (equal_sizes_analysis_agrees 105 100 50 [overlapA; overlapB]).
  - discriminate.
  - repeat constructor.
Defined.

(** ** How the award varies *)

Lemma Rmax_mono_l (x y c : R) : x <= y -> Rmax x c <= Rmax y c.
Proof.
  intros H. unfold Rmax.
  destruct (Rle_dec x c), (Rle_dec y c); lra.
Qed.

Lemma multiplier_range (z : HitZone) : 1 <= getScoreMultiplier z <= 2.
Proof. destruct z; cbn; lra. Qed.

Lemma multiplier_antitone (d d' s : R) :
  d <= d' ->
  getScoreMultiplier (getHitZone d' s) <= getScoreMultiplier (getHitZone d s).
Proof.
  intros Hle.
  destruct (getHitZone d s) eqn:Z1; destruct (getHitZone d' s) eqn:Z2;
    cbn; try lra.
  - apply getHitZone_center in Z2. apply getHitZone_ring in Z1. lra.
  - apply getHitZone_center in Z2. apply getHitZone_edge in Z1. lra.
  - apply getHitZone_ring in Z2. apply getHitZone_edge in Z1. lra.
Qed.

Lemma floor_quotient_mono (a b : Z) (d : R) :
  0 < d -> (a <= b)%Z ->
  IZR (JS.floor (IZR a / d)) <= IZR (JS.floor (IZR b / d)).
Proof.
  intros Hd Hab. apply IZR_le, Zfloor_le.
  apply IZR_le in Hab.
  apply Rmult_le_compat_r; [|exact Hab].
  apply Rlt_le, Rinv_0_lt_compat, Hd.
Qed.

Lemma getScoreForMode_min settings mode reactionTime target :
  20 <= getScoreForMode settings mode reactionTime target.
Proof.
  unfold getScoreForMode. destruct mode.
  - pose proof (Rmax_r (150 - IZR (JS.floor (IZR reactionTime / 20))) 25). lra.
  - pose proof (Rmax_r (150 - IZR (JS.floor (IZR reactionTime / 8))) 20).
    destruct (_ || _); lra.
  - pose proof (Rmax_l 0 ((targetSize settings - t_size target) * 5)).
    destruct (reactionTime <? 300)%Z; [lra|].
    destruct (reactionTime <? 600)%Z; lra.
Qed.

Lemma getScoreForMode_antitone settings mode rt rt' target :
  (rt <= rt')%Z ->
  getScoreForMode settings mode rt' target
  <= getScoreForMode settings mode rt target.
Proof.
  intros Hle. unfold getScoreForMode. destruct mode.
  - apply Rmax_mono_l.
    pose proof (floor_quotient_mono rt rt' 20 ltac:(lra) Hle). lra.
  - apply Rplus_le_compat_r, Rmax_mono_l.
    pose proof (floor_quotient_mono rt rt' 8 ltac:(lra) Hle). lra.
  - apply Rplus_le_compat_r.
    destruct (rt <? 300)%Z eqn:E1; destruct (rt' <? 300)%Z eqn:E1';
      destruct (rt <? 600)%Z eqn:E2; destruct (rt' <? 600)%Z eqn:E2';
      try lra;
      rewrite ?Z.ltb_lt, ?Z.ltb_ge in *; lia.
Qed.

Lemma getScoreForMode_same_shape settings mode rt t t' :
  velocityOk t -> velocityOk t' ->
  hasVelocity t' = hasVelocity t ->
  t_size t' = t_size t ->
  getScoreForMode settings mode rt t' = getScoreForMode settings mode rt t.
Proof.
  intros Hok Hok' Hvel Hsize. unfold getScoreForMode.
  rewrite (speedBonus_hasVelocity t Hok), (speedBonus_hasVelocity t' Hok').
  rewrite Hvel, Hsize. reflexivity.
Qed.

(** X6: between two hits on a target whose size is the same at both
    moments (always so in Classic and Speed mode; a Precision target
    shrinks in between), at the same distance from its centre, the earlier
    hit never earns fewer points.  [t'] is the target as the later click
    finds it: it may have moved, but has the same creation time, size and
    kind of velocity. *)
Theorem faster_reaction_never_scores_less mode settings now now' x y x' y'
  t t'
  (Hfaster : (now <= now')%Z)
  (Hcreated : t_createdAt t' = t_createdAt t)
  (Hsize : t_size t' = t_size t)
  (Hok : velocityOk t) (Hok' : velocityOk t')
  (Hvel : hasVelocity t' = hasVelocity t)
  (Hdist : clickDistance x' y' t' = clickDistance x y t) :
  (hitScore mode settings now' x' y' t'
   <= hitScore mode settings now x y t)%Z.
Proof.
  unfold hitScore. rewrite Hcreated, Hsize, Hdist.
  rewrite (getScoreForMode_same_shape settings mode _ t t' Hok Hok' Hvel Hsize).
  apply Zfloor_le.
  pose proof (multiplier_range
                (getHitZone (clickDistance x y t) (t_size t)))
    as [Hm _].
  apply Rmult_le_compat_r; [lra|].
  apply getScoreForMode_antitone. lia.
Qed.

Lemma faster_reaction_never_scores_less_witness :
  (hitScore classic defaultSettings 900 100 100 overlapA
   <= hitScore classic defaultSettings 100 100 100 overlapA)%Z.
Proof.
  apply (faster_reaction_never_scores_less classic defaultSettings 100 900
           100 100 100 100 overlapA overlapA).
  - lia.
  - reflexivity.
  - reflexivity.
  - exact I.
  - exact I.
  - reflexivity.
  - reflexivity.
Defined.

(** X7: on the same target and at the same moment, a click closer to the
    centre never earns fewer points, in any mode. *)
Theorem closer_click_never_scores_less mode settings now x y x' y' target
  (Hcloser : clickDistance x y target <= clickDistance x' y' target) :
  (hitScore mode settings now x' y' target
   <= hitScore mode settings now x y target)%Z.
Proof.
  unfold hitScore. apply Zfloor_le.
  pose proof (getScoreForMode_min settings mode (now - t_createdAt target)
                target) as Hbase.
  apply Rmult_le_compat_l; [lra|].
  apply multiplier_antitone, Hcloser.
Qed.

Lemma closer_click_never_scores_less_witness :
  (hitScore classic defaultSettings 100 105 100 overlapB
   <= hitScore classic defaultSettings 100 110 100 overlapB)%Z.
Proof.
  apply (closer_click_never_scores_less classic defaultSettings 100
           110 100 105 100 overlapB).
  rewrite (clickDistance_right 110 100 overlapB) by (cbn; lra).
  rewrite (clickDistance_left 105 100 overlapB) by (cbn; lra).
  cbn. lra.
Defined.

Lemma floor_between (lo hi : Z) (x : R) :
  IZR lo <= x <= IZR hi -> (lo <= JS.floor x <= hi)%Z.
Proof.
  intros [Hlo Hhi]. unfold JS.floor. split.
  - apply Zfloor_lub, Hlo.
  - pose proof (Zfloor_bound x) as [Hb _].
    apply le_IZR. lra.
Qed.

Lemma hitScore_min mode settings now x y target :
  (20 <= hitScore mode settings now x y target)%Z.
Proof.
  unfold hitScore, JS.floor. apply Zfloor_lub.
  pose proof (getScoreForMode_min settings mode (now - t_createdAt target)
                target) as Hbase.
  pose proof (multiplier_range
                (getHitZone (clickDistance x y target) (t_size target)))
    as [Hm _].
  change (IZR 20) with 20. nra.
Qed.

(** X8: what one hit can be worth.  For a target hit at or after its
    creation, the award is between 25 and 300 in Classic mode and between
    20 and 400 in Speed mode, and at least 100 in Precision mode. *)
Theorem award_bounds mode settings now x y target
  (Hage : (t_createdAt target <= now)%Z) :
  let award := hitScore mode settings now x y target in
  match mode with
  | classic => (25 <= award <= 300)%Z
  | speed => (20 <= award <= 400)%Z
  | precision => (100 <= award)%Z
  end.
Proof.
  cbv zeta. unfold hitScore.
  set (rt := (now - t_createdAt target)%Z).
  assert (Hrt : (0 <= rt)%Z) by (unfold rt; lia).
  pose proof (multiplier_range
                (getHitZone (clickDistance x y target) (t_size target)))
    as [Hm1 Hm2].
  set (m := getScoreMultiplier _) in *.
  assert (Hfloor : forall d, 0 < d -> 0 <= IZR (JS.floor (IZR rt / d))).
  { intros d Hd.
    pose proof (floor_quotient_mono 0 rt d Hd Hrt) as H.
    replace (IZR 0 / d) with (IZR 0) in H by (unfold Rdiv; cbn; ring).
    unfold JS.floor in H at 1. rewrite ZfloorZ in H. exact H. }
  destruct mode; unfold getScoreForMode.
  - pose proof (Hfloor 20 ltac:(lra)) as H20.
    set (q := IZR (JS.floor (IZR rt / 20))) in *.
    assert (Hb : 25 <= Rmax (150 - q) 25 <= 150).
    { split; [apply Rmax_r|]. apply Rmax_lub; lra. }
    apply floor_between.
    change (IZR 25) with 25. change (IZR 300) with 300. split; nra.
  - pose proof (Hfloor 8 ltac:(lra)) as H8.
    set (q := IZR (JS.floor (IZR rt / 8))) in *.
    assert (Hb : 20 <= Rmax (150 - q) 20 <= 150).
    { split; [apply Rmax_r|]. apply Rmax_lub; lra. }
    apply floor_between.
    change (IZR 20) with 20. change (IZR 400) with 400.
    destruct (_ || _); split; nra.
  - unfold JS.floor. apply Zfloor_lub.
    pose proof (Rmax_l 0 ((targetSize settings - t_size target) * 5)) as Hs.
    set (bonus := Rmax 0 _) in *.
    change (IZR 100) with 100.
    destruct (rt <? 300)%Z; [nra|].
    destruct (rt <? 600)%Z; nra.
Qed.

Lemma award_bounds_witness :
  (25 <= hitScore classic defaultSettings 100 100 100 overlapA <= 300)%Z.
Proof.
  apply (award_bounds classic defaultSettings 100 100 100 overlapA).
  cbn. lia.
Defined.

(** ** Counter by counter: what a session's statistics mean *)

Lemma filterHits_preserves mode settings now rnd x y (P : GameStats -> Prop) :
  (forall r t st,
      P (gameStats st) ->
      P (gameStats (registerHit mode settings now r x y t st))) ->
  forall prev run,
    P (gameStats (cr_state run)) ->
    P (gameStats
         (cr_state (snd (filterHits mode settings now rnd x y prev run)))).
Proof.
  intros Hreg. induction prev as [|t prev IH]; intros run H; cbn [filterHits].
  - exact H.
  - destruct (covers x y t).
    + apply IH. cbn [cr_state]. apply Hreg, H.
    + specialize (IH run H).
      destruct (filterHits mode settings now rnd x y prev run).
      exact IH.
Qed.

Lemma handleCanvasClick_hit_stats mode settings now rnd x y st :
  isPlaying st = true ->
  gameStats (handleCanvasClick mode settings now rnd x y st)
  = recordMiss (penalty mode) (analyzeShot x y (targets st))
      (gameStats
         (cr_state
            (snd (filterHits mode settings now rnd x y (targets st)
                    (mkRun false 0
                       (setLastShotAnalysis
                          (Some (analyzeShot x y (targets st))) st)))))).
Proof.
  intros Hplay. rewrite handleCanvasClick_playing by exact Hplay.
  reflexivity.
Qed.

Lemma decomposed_click mode settings now rnd x y st g c :
  decomposed mode (gameStats st) g c ->
  decomposed mode (gameStats (handleCanvasClick mode settings now rnd x y st))
             (tally (EvClick now rnd x y) st g)
             (logClick (EvClick now rnd x y) st c).
Proof.
  intros H. cbn [tally logClick].
  destruct (isPlaying st) eqn:Hplay; cbn [andb].
  2:{ unfold handleCanvasClick. rewrite Hplay. exact H. }
  rewrite handleCanvasClick_hit_stats by assumption.
  assert (Hhits :
    decomposed mode
      (gameStats
         (cr_state
            (snd (filterHits mode settings now rnd x y (targets st)
                    (mkRun false 0
                       (setLastShotAnalysis
                          (Some (analyzeShot x y (targets st))) st))))))
      g c).
  { apply filterHits_preserves with (P := fun s => decomposed mode s g c);
      [|exact H].
    clear. intros r t st (H1 & H2 & H3 & H4 & H5 & H6 & H7 & H8).
    pose proof (hitScore_min mode settings now x y t) as Hmin.
    unfold decomposed. cbn -[Z.mul Z.add Z.of_nat].
    rewrite length_app. cbn [List.length].
    destruct (getHitZone _ _); repeat split; lia. }
  destruct Hhits as (H1 & H2 & H3 & H4 & H5 & H6 & H7 & H8).
  assert (Hpassive :
    passiveExpiries
      (if negb (existsb (covers x y) (targets st))
       then mkTally (passiveExpiries g) (activeMisses g + 1)
                    (missDistances g
                     ++ [sa_distance (analyzeShot x y (targets st))])
       else g) = passiveExpiries g)
    by (destruct (negb _); reflexivity).
  unfold decomposed. rewrite Hpassive.
  cbn -[Z.mul Z.add Z.of_nat].
  destruct (sa_direction _); repeat split; lia.
Qed.

Lemma decomposed_expire mode id st g c :
  decomposed mode (gameStats st) g c ->
  decomposed mode (gameStats (expireTarget id st)) (tally (EvExpire id) st g)
             (logClick (EvExpire id) st c).
Proof.
  intros (H1 & H2 & H3 & H4 & H5 & H6 & H7 & H8).
  unfold expireTarget. cbn [tally logClick]. rewrite expiry_removes_iff.
  destruct (existsb _ (targets st)); unfold decomposed;
    cbn -[Z.mul Z.add Z.of_nat]; repeat split; lia.
Qed.

Lemma step_decomposed mode settings callSave e w g c :
  decomposed mode (gameStats (client w)) g c ->
  decomposed mode (gameStats (client (step mode settings callSave e w)))
             (tally e (client w) g) (logClick e (client w) c).
Proof.
  intros H. destruct e; cbn [step onClient client].
  - apply decomposed_click, H.
  - apply decomposed_expire, H.
  - unfold spawnTick. destruct (negb _); [exact H|].
    destruct (_ <? _)%nat; exact H.
  - unfold animationTick. destruct (negb _); exact H.
  - exact H.
  - unfold timerTick. destruct (negb _); [exact H|].
    destruct (_ <=? _)%Z; cbn [client];
      [rewrite endGameOfStartRender_client|]; exact H.
  - unfold stopGame. rewrite endGame_client. exact H.
Qed.

(** X9: at every point of a session, in every mode, with the clicks made
    while playing counted whether they hit or not: totalShots is the
    targets hit plus those clicks; targetsMissed is the passive expiries
    plus the mode's penalty for each of those clicks; the three zone
    counters add up to targetsHit; one reaction time is recorded per
    target hit; overshoots and undershoots together never exceed those
    clicks; and the score is at least 20 points per target hit. *)
Theorem session_counters mode settings callSave bounds now rnd evs w :
  let r := session mode settings callSave bounds now rnd evs w in
  let c := sessionClicks mode settings callSave bounds now rnd evs w in
  let s := gameStats (client (fst r)) in
  let g := snd r in
  totalShots s = (targetsHit s + clicksPlayed c)%Z /\
  targetsMissed s
  = (passiveExpiries g
     + match mode with precision => 2 | _ => 1 end * clicksPlayed c)%Z /\
  (centerHits s + ringHits s + edgeHits s = targetsHit s)%Z /\
  Z.of_nat (List.length (reactionTimes s)) = targetsHit s /\
  (overshoots s + undershoots s <= clicksPlayed c)%Z /\
  (20 * targetsHit s <= score s)%Z.
Proof.
  cbv zeta. unfold session, sessionClicks.
  assert (Hstart :
    decomposed mode
      (gameStats (client (onClient (startGame mode settings bounds now rnd) w)))
      noTally noClicks).
  { unfold decomposed. cbn. repeat split; lia. }
  revert Hstart.
  generalize (onClient (startGame mode settings bounds now rnd) w)
             noTally noClicks.
  induction evs as [|e evs IH]; intros w0 g0 c0 H0; cbn [run clickLog].
  - destruct H0 as (H1 & H2 & H3 & H4 & H5 & H6 & H7 & H8).
    repeat split; assumption.
  - apply IH, step_decomposed, H0.
Qed.

(** ** The live-target collection *)

Lemma filter_length_le {A} (f : A -> bool) (l : list A) :
  (List.length (filter f l) <= List.length l)%nat.
Proof.
  induction l as [|a l IH]; cbn; [lia|].
  destruct (f a); cbn; lia.
Qed.

Lemma getMaxTargets_pos mode : (1 <= getMaxTargets mode)%nat.
Proof. destruct mode; cbn; lia. Qed.

Lemma step_cap mode settings callSave e w :
  (List.length (targets (client w)) <= getMaxTargets mode)%nat ->
  (List.length (targets (client (step mode settings callSave e w)))
   <= getMaxTargets mode)%nat.
Proof.
  intros H. destruct e; cbn [step onClient client].
  - destruct (isPlaying (client w)) eqn:Hplay.
    + rewrite handleCanvasClick_targets by exact Hplay.
      pose proof (filter_length_le (fun t => negb (covers clickX clickY t))
                    (targets (client w))). lia.
    + unfold handleCanvasClick. rewrite Hplay. exact H.
  - unfold expireTarget. cbn.
    pose proof (filter_length_le (fun t => JS.neqb (t_id t) id)
                  (targets (client w))). lia.
  - unfold spawnTick. destruct (negb _); [exact H|].
    destruct (_ <? _)%nat eqn:E; [|exact H].
    apply Nat.ltb_lt in E. cbn. rewrite length_app. cbn. lia.
  - unfold animationTick. destruct (negb _); [exact H|].
    cbn. rewrite length_map. exact H.
  - exact H.
  - unfold timerTick. destruct (negb _); [exact H|].
    destruct (_ <=? _)%Z; cbn [client]; [|exact H].
    rewrite endGameOfStartRender_client. cbn. lia.
  - unfold stopGame. rewrite endGame_client. cbn. lia.
Qed.

(** X10: a session never has more live targets than the mode's cap (4 in
    Speed, 2 in Classic, 1 in Precision), whatever the order of clicks,
    expiries and ticks. *)
Theorem session_target_cap mode settings callSave bounds now rnd evs w :
  (List.length
     (targets
        (client (fst (session mode settings callSave bounds now rnd evs w))))
   <= match mode with speed => 4 | precision => 1 | classic => 2 end)%nat.
Proof.
  change (match mode with speed => 4 | precision => 1 | classic => 2 end)%nat
    with (getMaxTargets mode).
  unfold session.
  assert (Hstart :
    (List.length
       (targets
          (client (onClient (startGame mode settings bounds now rnd) w)))
     <= getMaxTargets mode)%nat).
  { cbn. apply getMaxTargets_pos. }
  revert Hstart.
  generalize (onClient (startGame mode settings bounds now rnd) w) noTally.
  induction evs as [|e evs IH]; intros w0 g0 H0; cbn [run].
  - exact H0.
  - apply IH, step_cap, H0.
Qed.

(** X11: with the target size at least 20 px and a canvas at least two
    target sizes wide and high, every target is spawned with its whole
    disc inside the canvas, in every mode. *)
Theorem spawn_inside_canvas mode settings bounds now rnd
  (Hrnd : forall k : nat, 0 <= rnd k < 1)
  (Hsize : 20 <= targetSize settings)
  (Hwidth : 2 * targetSize settings <= width bounds)
  (Hheight : 2 * targetSize settings <= height bounds) :
  insideCanvas bounds (newTarget mode settings bounds now rnd).
Proof.
  pose proof (Hrnd 1%nat) as H1. pose proof (Hrnd 2%nat) as H2.
  pose proof (Hrnd 3%nat) as H3.
  set (ts := targetSize settings) in *.
  assert (Hx : ts <= ts + rnd 1%nat * (width bounds - 2 * ts)
                <= width bounds - ts) by (split; nra).
  assert (Hy : ts <= ts + rnd 2%nat * (height bounds - 2 * ts)
                <= height bounds - ts) by (split; nra).
  unfold insideCanvas, newTarget. fold ts.
  destruct mode; cbn [t_size t_x t_y].
  - split; lra.
  - assert (Hd : Rmax 20 (ts - 15) <= 2 * ts) by (apply Rmax_lub; lra).
    split; lra.
  - split; lra.
Qed.

Lemma spawn_inside_canvas_witness :
  insideCanvas canvas
    (newTarget speed defaultSettings canvas 0 (fun _ => 0.5)).
Proof.
  apply (spawn_inside_canvas speed defaultSettings canvas 0 (fun _ => 0.5)).
  - intros _. lra.
  - cbn. lra.
  - cbn. lra.
  - cbn. lra.
Defined.

(** ** Movement and shrinking *)

Lemma hypot2_flip (vx vy : R) (bx bY : bool) :
  JS.hypot2 (if bx then - vx else vx) (if bY then - vy else vy)
  = JS.hypot2 vx vy.
Proof.
  unfold JS.hypot2. f_equal. destruct bx, bY; ring.
Qed.

(** X12: one animation step of a moving target that fits the canvas
    leaves it inside the canvas and keeps its speed; if the step would
    carry the centre to or past the right wall, the target sits exactly on
    that wall with its x velocity negated (likewise on the left), and its
    y velocity does not change unless it meets the top or bottom wall. *)
Theorem animateTarget_bounces mode settings bounds now t vx vy
  (Hvx : t_velocityX t = Some vx) (Hvy : t_velocityY t = Some vy)
  (Hsteady : t_shrinking t = false)
  (Hfitx : t_size t <= width bounds) (Hfity : t_size t <= height bounds) :
  let t' := animateTarget mode settings bounds now t in
  let half := t_size t / 2 in
  let x1 := t_x t + vx * 0.016 in
  let y1 := t_y t + vy * 0.016 in
  insideCanvas bounds t' /\
  t_size t' = t_size t /\
  (exists vx' vy',
      t_velocityX t' = Some vx' /\ t_velocityY t' = Some vy' /\
      JS.hypot2 vx' vy' = JS.hypot2 vx vy /\
      (width bounds - half <= x1 -> vx' = - vx /\ t_x t' = width bounds - half) /\
      (x1 <= half -> vx' = - vx /\ t_x t' = half) /\
      (half < x1 < width bounds - half -> vx' = vx /\ t_x t' = x1) /\
      (half < y1 < height bounds - half -> vy' = vy /\ t_y t' = y1)).
Proof.
  cbv zeta. unfold animateTarget. rewrite Hvx, Hvy, Hsteady.
  set (half := t_size t / 2).
  set (x1 := t_x t + vx * 0.016). set (y1 := t_y t + vy * 0.016).
  cbn [t_size t_x t_y t_velocityX t_velocityY].
  assert (Hclamp : forall lim p, half <= lim - half ->
            half <= Rmax half (Rmin (lim - half) p) <= lim - half).
  { intros lim p Hl. split; [apply Rmax_l|].
    apply Rmax_lub; [exact Hl | apply Rmin_l]. }
  assert (Hhx : half <= width bounds - half) by (unfold half; lra).
  assert (Hhy : half <= height bounds - half) by (unfold half; lra).
  split.
  { unfold insideCanvas. cbn [t_size t_x t_y]. fold half.
    split; apply Hclamp; assumption. }
  split; [reflexivity|].
  eexists _, _. split; [reflexivity|]. split; [reflexivity|].
  split; [apply hypot2_flip|].
  unfold JS.geb.
  split.
  { intros Hwall.
    rewrite (proj2 (leb_true_iff (width bounds - half) x1) Hwall).
    rewrite orb_true_r. split; [reflexivity|].
    rewrite Rmin_left by lra. apply Rmax_right. lra. }
  split.
  { intros Hwall.
    rewrite (proj2 (leb_true_iff x1 half) Hwall). cbn [orb].
    split; [reflexivity|].
    rewrite Rmax_left; [reflexivity|].
    apply Rle_trans with x1; [apply Rmin_r | exact Hwall]. }
  split.
  { intros [Hlo Hhi].
    rewrite (proj2 (leb_false_iff x1 half) Hlo).
    rewrite (proj2 (leb_false_iff (width bounds - half) x1) Hhi).
    cbn [orb]. split; [reflexivity|].
    rewrite Rmin_right by lra. apply Rmax_right. lra. }
  intros [Hlo Hhi].
  rewrite (proj2 (leb_false_iff y1 half) Hlo).
  rewrite (proj2 (leb_false_iff (height bounds - half) y1) Hhi).
  cbn [orb]. split; [reflexivity|].
  rewrite Rmin_right by lra. apply Rmax_right. lra.
Qed.

Lemma animateTarget_bounces_witness :
  let t := mkTarget 7 782 300 35 0 (Some 100) (Some 0) false in
  t_x (animateTarget speed defaultSettings canvas 16 t) = 800 - 35 / 2 /\
  t_velocityX (animateTarget speed defaultSettings canvas 16 t)
  = Some (- 100).
Proof.
  cbv zeta.
  destruct (animateTarget_bounces speed defaultSettings canvas 16
              (mkTarget 7 782 300 35 0 (Some 100) (Some 0) false) 100 0
              eq_refl eq_refl eq_refl ltac:(cbn; lra) ltac:(cbn; lra))
    as (_ & _ & vx' & vy' & Hx & _ & _ & Hright & _).
  cbv zeta in Hright. cbn [t_size t_x width canvas] in Hright.
  destruct Hright as [Hv Hpos]; [lra|].
  split; [exact Hpos|]. rewrite Hx, Hv. reflexivity.
Defined.

(** X13: a Precision target only ever shrinks: of two animation steps,
    the later one gives the smaller (or equal) size. *)
Theorem shrinking_is_monotone settings bounds now now' t
  (Hshrinking : t_shrinking t = true)
  (Hbase : 0 <= targetSize settings + 20)
  (Hlife : 0 < targetSpeed settings + 1000)
  (Hlater : (now <= now')%Z) :
  t_size (animateTarget precision settings bounds now' t)
  <= t_size (animateTarget precision settings bounds now t).
Proof.
  rewrite !animateTarget_shrinking_size by exact Hshrinking.
  cbn [getTargetLifetime].
  apply Rmult_le_compat_l; [exact Hbase|].
  apply Rle_max_compat_l.
  assert (Hage : IZR (now - t_createdAt t) <= IZR (now' - t_createdAt t))
    by (apply IZR_le; lia).
  assert (Hq : IZR (now - t_createdAt t) / (targetSpeed settings + 1000)
               <= IZR (now' - t_createdAt t) / (targetSpeed settings + 1000)).
  { apply Rmult_le_compat_r; [|exact Hage].
    apply Rlt_le, Rinv_0_lt_compat, Hlife. }
  lra.
Qed.

Lemma shrinking_is_monotone_witness :
  t_size (animateTarget precision defaultSettings canvas 2000
            (newTarget precision defaultSettings canvas 0 (fun _ => 0.5)))
  <= t_size (animateTarget precision defaultSettings canvas 1000
               (newTarget precision defaultSettings canvas 0 (fun _ => 0.5))).
Proof.
  apply (shrinking_is_monotone defaultSettings canvas 1000 2000).
  - reflexivity.
  - cbn. lra.
  - cbn. lra.
  - lia.
Defined.

(** ** Expiry callbacks *)

Lemma setTargets_same (st : ClientState) :
  setTargets (fun _ => targets st) st = st.
Proof. destruct st. reflexivity. Qed.

Lemma filter_keeps_all {A} (keep : A -> bool) (xs : list A) :
  forallb keep xs = true -> filter keep xs = xs.
Proof.
  induction xs as [|x xs IH]; cbn; intros H; [reflexivity|].
  apply andb_true_iff in H. destruct H as [Hx Hxs].
  rewrite Hx, (IH Hxs). reflexivity.
Qed.

Lemma expireTarget_absent (id : R) (st : ClientState) :
  (forall t, In t (targets st) -> t_id t <> id) ->
  expireTarget id st = st.
Proof.
  intros Habsent. unfold expireTarget.
  rewrite filter_keeps_all.
  - rewrite Nat.ltb_irrefl. apply setTargets_same.
  - apply forallb_forall. intros t Ht. apply neqb_true_iff, Habsent, Ht.
Qed.

Lemma distinctIds_inj (ts : list Target) (a b : Target) :
  distinctIds ts -> In a ts -> In b ts -> t_id a = t_id b -> a = b.
Proof.
  unfold distinctIds. induction ts as [|t ts IH]; cbn; [tauto|].
  intros Hnd Ha Hb Hid. inversion Hnd as [|x l Hnotin Hrest]; subst.
  destruct Ha as [-> | Ha], Hb as [-> | Hb].
  - reflexivity.
  - exfalso. apply Hnotin. rewrite Hid. apply in_map, Hb.
  - exfalso. apply Hnotin. rewrite <- Hid. apply in_map, Ha.
  - apply IH; assumption.
Qed.

(** X14: the expiry of a target that was hit does nothing.  With distinct
    target ids, a click removes every target it lands on, and the expiry
    callback armed for such a target then leaves the whole state as it
    is: the expiry adds no miss for it. *)
Theorem hit_target_never_expires mode settings now rnd x y st t
  (Hplay : isPlaying st = true)
  (Hids : distinctIds (targets st))
  (Hlive : In t (targets st))
  (Hcovered : covers x y t = true) :
  let st' := handleCanvasClick mode settings now rnd x y st in
  ~ In t (targets st') /\
  expireTarget (t_id t) st' = st'.
Proof.
  cbv zeta.
  pose proof (handleCanvasClick_targets mode settings now rnd x y st Hplay)
    as Htargets.
  split.
  - rewrite Htargets, filter_In, Hcovered. cbn. intros [_ H]. discriminate.
  - apply expireTarget_absent. intros u Hu Hid.
    rewrite Htargets in Hu. apply filter_In in Hu. destruct Hu as [Hu Hc].
    assert (u = t) by (apply (distinctIds_inj (targets st)); assumption).
    subst u. rewrite Hcovered in Hc. discriminate.
Qed.

Lemma hit_target_never_expires_witness :
  expireTarget 1
    (handleCanvasClick classic defaultSettings 500 (fun _ => 0) 105 100
                       (playingWith [overlapA; overlapB]))
  = handleCanvasClick classic defaultSettings 500 (fun _ => 0) 105 100
                      (playingWith [overlapA; overlapB]).
Proof.
  assert (Hc : covers 105 100 overlapA = true).
  { apply covers_true_iff. destruct overlap_distances as [dA _].
    rewrite dA. cbn. lra. }
  assert (Hids : distinctIds (targets (playingWith [overlapA; overlapB]))).
  { unfold distinctIds. cbn. constructor.
    - intros [H | []]. lra.
    - constructor; [intros [] | constructor]. }
  apply (hit_target_never_expires classic defaultSettings 500 (fun _ => 0)
           105 100 (playingWith [overlapA; overlapB]) overlapA
           eq_refl Hids (or_introl eq_refl) Hc).
Defined.

(** X15: the expiry of a target that is still live removes it and counts
    exactly one miss, in every mode and without touching any other
    statistic; if the callback fired again it would change nothing. *)
Theorem live_target_expiry_counts_once (st : ClientState) (t : Target)
  (Hlive : In t (targets st)) :
  let st' := expireTarget (t_id t) st in
  gameStats st' = recordExpiry (gameStats st) /\
  targetsMissed (gameStats st') = (targetsMissed (gameStats st) + 1)%Z /\
  totalShots (gameStats st') = totalShots (gameStats st) /\
  averageMissDistance (gameStats st') = averageMissDistance (gameStats st) /\
  (forall u, In u (targets st') <-> In u (targets st) /\ t_id u <> t_id t) /\
  expireTarget (t_id t) st' = st'.
Proof.
  cbv zeta.
  assert (Hex : existsb (fun u => negb (JS.neqb (t_id u) (t_id t)))
                        (targets st) = true).
  { apply existsb_exists. exists t. split; [exact Hlive|].
    rewrite (proj2 (neqb_false_iff (t_id t) (t_id t)) eq_refl). reflexivity. }
  assert (Hin : forall u,
             In u (targets (expireTarget (t_id t) st))
             <-> In u (targets st) /\ t_id u <> t_id t).
  { intros u. unfold expireTarget. cbn.
    rewrite filter_In, neqb_true_iff. tauto. }
  assert (Hstats : gameStats (expireTarget (t_id t) st)
                   = recordExpiry (gameStats st)).
  { unfold expireTarget. rewrite expiry_removes_iff, Hex. reflexivity. }
  split; [exact Hstats|].
  rewrite Hstats. repeat split; try apply Hin; try tauto.
  apply expireTarget_absent. intros u Hu. apply Hin in Hu. tauto.
Qed.

Lemma live_target_expiry_counts_once_witness :
  targetsMissed (gameStats (expireTarget 1 (playingWith [overlapA; overlapB])))
  = 1%Z.
Proof.
  destruct (live_target_expiry_counts_once
              (playingWith [overlapA; overlapB]) overlapA
              (or_introl eq_refl)) as (_ & Hm & _).
  exact Hm.
Defined.

(** ** After the end, and the countdown that leads there *)

(** X16: once a session has ended, nothing but a new start reaches the
    engine: clicks, late expiry callbacks and the spawn, animation,
    clean-up and countdown ticks leave the statistics, the (empty) target
    collection, the backend and the notifications as the end left them. *)
Theorem ended_session_is_inert mode settings callSave e w
  (Hnostop : e <> EvStop) :
  let ended := endGame mode settings callSave w in
  let after := step mode settings callSave e ended in
  gameStats (client after) = gameStats (client w) /\
  targets (client after) = [] /\
  isPlaying (client after) = false /\
  timeLeft (client after) = timeLeft (client w) /\
  server after = server ended /\
  toasts after = toasts ended.
Proof.
  cbv zeta.
  pose proof (endGame_client mode settings callSave w) as Hc.
  set (ended := endGame mode settings callSave w) in *.
  destruct e; cbn [step onClient client server toasts];
    try congruence.
  - unfold handleCanvasClick. rewrite Hc. cbn. repeat split.
  - rewrite Hc. cbn. repeat split.
  - unfold spawnTick. rewrite Hc. cbn. repeat split.
  - unfold animationTick. rewrite Hc. cbn. repeat split.
  - rewrite Hc. cbn. repeat split.
  - unfold timerTick. rewrite Hc. cbn. rewrite Hc. cbn. repeat split.
Qed.

Lemma ended_session_is_inert_witness :
  gameStats
    (client
       (step classic defaultSettings Convex.saveSession
             (EvClick 40000 (fun _ => 0) 400 300)
             (endGame classic defaultSettings Convex.saveSession
                      (earlyStop signedOut))))
  = zeroStats 0.
Proof.
  destruct (ended_session_is_inert classic defaultSettings Convex.saveSession
              (EvClick 40000 (fun _ => 0) 400 300) (earlyStop signedOut)
              ltac:(discriminate)) as (Hs & _).
  exact Hs.
Defined.

Lemma run_app mode settings callSave evs1 evs2 : forall w g,
  run mode settings callSave (evs1 ++ evs2) w g
  = run mode settings callSave evs2
        (fst (run mode settings callSave evs1 w g))
        (snd (run mode settings callSave evs1 w g)).
Proof.
  induction evs1 as [|e evs1 IH]; intros w g; cbn [app run fst snd].
  - reflexivity.
  - apply IH.
Qed.

Lemma setTimeLeft_twice (f h : Z -> Z) (st : ClientState) :
  setTimeLeft f (setTimeLeft h st) = setTimeLeft (fun p => f (h p)) st.
Proof. reflexivity. Qed.

Lemma countdown_running mode settings callSave (n : nat) : forall w g,
  isPlaying (client w) = true ->
  (Z.of_nat n < timeLeft (client w))%Z ->
  run mode settings callSave (repeat EvTimerTick n) w g
  = (mkWorld (setTimeLeft (fun p => (p - Z.of_nat n)%Z) (client w))
             (server w) (toasts w), g).
Proof.
  induction n as [|n IH]; intros w g Hplay Hleft.
  - cbn [repeat run]. destruct w as [[] srv ts].
    unfold setTimeLeft.
    cbn [client server toasts isPlaying targets hitEffects missEffects
         lastShotAnalysis gameStats timeLeft].
    change (Z.of_nat 0) with 0%Z. now rewrite Z.sub_0_r.
  - cbn [repeat run step tally].
    assert (Htick :
      timerTick mode settings callSave w
      = mkWorld (setTimeLeft (fun p => (p - 1)%Z) (client w))
                (server w) (toasts w)).
    { unfold timerTick. rewrite Hplay. cbn [negb].
      rewrite (proj2 (Z.leb_gt _ _)) by lia. reflexivity. }
    rewrite Htick, IH.
    + cbn [client server toasts]. rewrite setTimeLeft_twice.
      destruct w as [[] srv ts]. unfold setTimeLeft.
      cbn [client server toasts isPlaying targets hitEffects missEffects
           lastShotAnalysis gameStats timeLeft].
      do 3 f_equal. lia.
    + exact Hplay.
    + cbn. lia.
Qed.

Lemma endGameOfStartRender_ignores_timeLeft mode settings callSave f w :
  endGameOfStartRender mode settings callSave
          (mkWorld (setTimeLeft f (client w)) (server w) (toasts w))
  = mkWorld
      (setTimeLeft f (client (endGameOfStartRender mode settings callSave w)))
      (server (endGameOfStartRender mode settings callSave w))
      (toasts (endGameOfStartRender mode settings callSave w)).
Proof.
  unfold endGameOfStartRender, startOfGameStats.
  cbn [client server toasts setTimeLeft gameStats].
  destruct (callSave (server w) _) as [[msg | id] srv]; reflexivity.
Qed.

Lemma idle_ticks mode settings callSave (m : nat) : forall w g,
  isPlaying (client w) = false ->
  run mode settings callSave (repeat EvTimerTick m) w g = (w, g).
Proof.
  induction m as [|m IH]; intros w g Hidle; cbn [repeat run step tally].
  - reflexivity.
  - unfold timerTick. rewrite Hidle. cbn [negb]. apply IH, Hidle.
Qed.

(** X17: the countdown ends the session on the tick that would take the
    remaining time to zero, and only once: with T seconds left (T >= 1)
    the session is still running, untouched but for the clock, after every
    one of the first T-1 ticks; the T-th tick ends it through the endGame
    of the render in which the game started (the state is ended as by
    endGame, the record saved and the notification are those of the
    start-of-game statistics) and sets the clock to 0; further ticks
    change nothing. *)
Theorem countdown_ends_once mode settings callSave n m w g
  (Hplay : isPlaying (client w) = true)
  (Hleft : timeLeft (client w) = Z.of_nat (S n)) :
  (forall k, (k <= n)%nat ->
     fst (run mode settings callSave (repeat EvTimerTick k) w g)
     = mkWorld (setTimeLeft (fun p => (p - Z.of_nat k)%Z) (client w))
               (server w) (toasts w)) /\
  fst (run mode settings callSave (repeat EvTimerTick (S n + m)) w g)
  = (let ended := endGameOfStartRender mode settings callSave w in
     mkWorld (setTimeLeft (fun _ => 0%Z) (client ended))
             (server ended) (toasts ended)) /\
  client (endGameOfStartRender mode settings callSave w)
  = client (endGame mode settings callSave w) /\
  server (endGameOfStartRender mode settings callSave w)
  = snd (callSave (server w)
                  (sessionArgs mode settings
                     (zeroStats (startTime (gameStats (client w)))))).
Proof.
  split; [|split; [|split]].
  - intros k Hk. rewrite countdown_running; [reflexivity | exact Hplay | lia].
  - replace (S n + m)%nat with (n + (1 + m))%nat by lia.
    rewrite repeat_app, run_app.
    rewrite (countdown_running mode settings callSave n w g Hplay) by lia.
    cbn [fst snd]. cbn [repeat Nat.add run step tally].
    assert (Hlast :
      timerTick mode settings callSave
        (mkWorld (setTimeLeft (fun p => (p - Z.of_nat n)%Z) (client w))
                 (server w) (toasts w))
      = (let ended := endGameOfStartRender mode settings callSave w in
         mkWorld (setTimeLeft (fun _ => 0%Z) (client ended))
                 (server ended) (toasts ended))).
    { unfold timerTick. cbn [client setTimeLeft isPlaying timeLeft].
      rewrite Hplay. cbn [negb].
      rewrite (proj2 (Z.leb_le _ _)) by lia.
      change (mkClient (isPlaying (client w)) (targets (client w))
                (hitEffects (client w)) (missEffects (client w))
                (lastShotAnalysis (client w)) (gameStats (client w))
                (timeLeft (client w) - Z.of_nat n))
        with (setTimeLeft (fun p => (p - Z.of_nat n)%Z) (client w)).
      rewrite endGameOfStartRender_ignores_timeLeft. reflexivity. }
    rewrite Hlast, idle_ticks; [reflexivity|].
    cbv zeta. cbn [client]. rewrite endGameOfStartRender_client. reflexivity.
  - rewrite endGameOfStartRender_client, endGame_client. reflexivity.
  - unfold endGameOfStartRender, startOfGameStats.
    destruct (callSave (server w) _) as [[msg | id] srv]; reflexivity.
Qed.

Lemma countdown_ends_once_witness :
  isPlaying
    (client
       (fst (run classic defaultSettings Convex.saveSession
                 (repeat EvTimerTick (S 24 + 3)) (earlyStop signedOut)
                 noTally)))
  = false.
Proof.
  destruct (countdown_ends_once classic defaultSettings Convex.saveSession
              24 3 (earlyStop signedOut) noTally eq_refl eq_refl)
    as (_ & Hend & _).
  rewrite Hend. reflexivity.
Defined.

(** ** What a click puts on the canvas *)

Lemma filterHits_hitEffects mode settings now rnd x y prev : forall run,
  exists created,
    hitEffects
      (cr_state (snd (filterHits mode settings now rnd x y prev run)))
    = hitEffects (cr_state run) ++ created /\
    map he_score created
    = map (hitScore mode settings now x y) (hitsOf x y prev) /\
    map he_type created
    = map (fun t => getHitZone (clickDistance x y t) (t_size t))
          (hitsOf x y prev) /\
    Forall (fun e => he_x e = x /\ he_y e = y /\ he_createdAt e = now)
           created.
Proof.
  unfold hitsOf.
  induction prev as [|t prev IH]; intros run; cbn [filterHits filter].
  - exists []. cbn. rewrite app_nil_r. repeat split. constructor.
  - destruct (covers x y t).
    + destruct (IH (mkRun true (S (cr_draws run))
                      (registerHit mode settings now (rnd (cr_draws run))
                                   x y t (cr_state run))))
        as (created & Heff & Hscore & Htype & Hall).
      eexists (_ :: created). rewrite Heff. cbn [cr_state registerHit].
      split; [cbn; rewrite <- app_assoc; reflexivity|].
      cbn [map he_score he_type]. rewrite Hscore, Htype.
      repeat split. constructor; [cbn; repeat split | exact Hall].
    + specialize (IH run).
      destruct (filterHits mode settings now rnd x y prev run).
      exact IH.
Qed.

(** X18: what a click during play puts on the canvas.  It appends one
    hit effect per target it landed on, at the click position, each
    carrying that target's zone and award, and the score grows by exactly
    the sum of the awards shown; and it always appends exactly one miss
    effect, showing the analysed distance and direction, whether it
    landed on a target or not. *)
Theorem click_effects mode settings now rnd x y st
  (Hplay : isPlaying st = true) :
  let st' := handleCanvasClick mode settings now rnd x y st in
  let hits := hitsOf x y (targets st) in
  let shot := analyzeShot x y (targets st) in
  exists created effect,
    hitEffects st' = hitEffects st ++ created /\
    map he_score created = map (hitScore mode settings now x y) hits /\
    map he_type created
    = map (fun t => getHitZone (clickDistance x y t) (t_size t)) hits /\
    Forall (fun e => he_x e = x /\ he_y e = y /\ he_createdAt e = now)
           created /\
    score (gameStats st')
    = (score (gameStats st) + sumZ (map he_score created))%Z /\
    missEffects st' = missEffects st ++ [effect] /\
    me_x effect = x /\ me_y effect = y /\ me_createdAt effect = now /\
    me_distance effect = sa_distance shot /\
    me_direction effect = getDirectionText (sa_angle shot).
Proof.
  cbv zeta. rewrite handleCanvasClick_playing by exact Hplay. cbv zeta.
  set (st1 := setLastShotAnalysis _ st).
  destruct (filterHits_hitEffects mode settings now rnd x y (targets st)
              (mkRun false 0 st1)) as (created & Hc & Hs & Ht & Hall).
  pose proof (filterHits_board mode settings now rnd x y (targets st)
                (mkRun false 0 st1)) as (_ & _ & Bmiss & _).
  pose proof (filterHits_stats mode settings now rnd x y (targets st)
                (mkRun false 0 st1)) as (_ & _ & Hscore & _).
  destruct (filterHits mode settings now rnd x y (targets st)
              (mkRun false 0 st1)) as [kept run].
  cbn [fst snd cr_state] in *.
  eexists created, _.
  cbn [hitEffects missEffects gameStats setGameStats setMissEffects
       setTargets recordMiss score].
  rewrite Hc, Hs, Bmiss.
  split; [reflexivity|]. split; [reflexivity|]. split; [exact Ht|].
  split; [exact Hall|]. split; [exact Hscore|].
  split; [reflexivity|]. repeat split.
Qed.

Lemma click_effects_witness :
  exists created,
    hitEffects
      (handleCanvasClick classic defaultSettings 500 (fun _ => 0) 105 100
                         (playingWith [overlapA; overlapB]))
    = created /\
    List.length (map he_score created) = 2%nat.
Proof.
  destruct (click_effects classic defaultSettings 500 (fun _ => 0) 105 100
              (playingWith [overlapA; overlapB]) eq_refl)
    as (created & effect & Heff & Hscore & _).
  exists created. split; [exact Heff|].
  rewrite Hscore, length_map. unfold hitsOf. cbn [playingWith targets filter].
  destruct overlap_distances as [dA dB].
  rewrite (proj2 (covers_true_iff 105 100 overlapA))
    by (rewrite dA; cbn; lra).
  rewrite (proj2 (covers_true_iff 105 100 overlapB))
    by (rewrite dB; cbn; lra).
  reflexivity.
Defined.

(** ** Effects: visible exactly as long as they are kept *)

Lemma effect_opacity_positive (age d : Z) :
  (0 < d)%Z ->
  (0 < Rmax 0 (1 - IZR age / IZR d) <-> (age < d)%Z) /\
  (Rmax 0 (1 - IZR age / IZR d) = 0 <-> (d <= age)%Z).
Proof.
  intros Hd. assert (HdR : 0 < IZR d) by (apply IZR_lt; exact Hd).
  assert (Hq : forall c, IZR age / IZR d < c <-> IZR age < c * IZR d).
  { intros c. split; intros H.
    - apply Rmult_lt_reg_r with (/ IZR d);
        [apply Rinv_0_lt_compat; exact HdR|].
      rewrite Rmult_assoc, Rinv_r by lra. unfold Rdiv in H. lra.
    - apply Rmult_lt_reg_r with (IZR d); [exact HdR|].
      unfold Rdiv. rewrite Rmult_assoc, Rinv_l by lra. lra. }
  destruct (Z.lt_ge_cases age d) as [Hlt | Hge].
  - assert (IZR age < 1 * IZR d) by (apply IZR_lt in Hlt; lra).
    apply Hq in H. rewrite Rmax_right by lra.
    split; split; intros; try lia; lra.
  - assert (~ IZR age / IZR d < 1).
    { intros H. apply Hq in H. apply IZR_le in Hge. lra. }
    rewrite Rmax_left by lra.
    split; split; intros; try lia; lra.
Qed.

(** X19: the clean-up tick and the drawing code agree.  After a clean-up
    at time [now], the hit and miss effects that remain are exactly those
    still drawn with a positive opacity at that time; what was removed
    had already faded to opacity 0.  Statistics and targets are not
    touched. *)
Theorem cleanup_keeps_the_visible (now : Z) (st : ClientState) :
  let st' := cleanupTick now st in
  (forall e, In e (hitEffects st')
             <-> In e (hitEffects st) /\ 0 < hitEffectOpacity now e) /\
  (forall e, In e (missEffects st')
             <-> In e (missEffects st) /\ 0 < missEffectOpacity now e) /\
  (forall e, In e (hitEffects st) -> ~ In e (hitEffects st') ->
             hitEffectOpacity now e = 0) /\
  (forall e, In e (missEffects st) -> ~ In e (missEffects st') ->
             missEffectOpacity now e = 0) /\
  gameStats st' = gameStats st /\
  targets st' = targets st /\
  isPlaying st' = isPlaying st.
Proof.
  cbv zeta.
  assert (Hh : forall e, (now - he_createdAt e <? 1000)%Z = true
                         <-> 0 < hitEffectOpacity now e).
  { intros e. unfold hitEffectOpacity. cbv zeta. rewrite Z.ltb_lt.
    change 1000 with (IZR 1000).
    destruct (effect_opacity_positive (now - he_createdAt e) 1000
                ltac:(lia)) as [H _]. symmetry. exact H. }
  assert (Hm : forall e, (now - me_createdAt e <? 1500)%Z = true
                         <-> 0 < missEffectOpacity now e).
  { intros e. unfold missEffectOpacity. cbv zeta. rewrite Z.ltb_lt.
    change 1500 with (IZR 1500).
    destruct (effect_opacity_positive (now - me_createdAt e) 1500
                ltac:(lia)) as [H _]. symmetry. exact H. }
  assert (Hopa : forall a d, (0 < d)%Z ->
             ~ 0 < Rmax 0 (1 - IZR a / IZR d) ->
             Rmax 0 (1 - IZR a / IZR d) = 0).
  { intros a d Hd Hn. pose proof (Rmax_l 0 (1 - IZR a / IZR d)). lra. }
  unfold cleanupTick. cbn [hitEffects missEffects setMissEffects setHitEffects].
  split.
  { intros e. rewrite filter_In, Hh. tauto. }
  split.
  { intros e. rewrite filter_In, Hm. tauto. }
  split.
  { intros e Hin Hout. rewrite filter_In, Hh in Hout.
    apply (Hopa (now - he_createdAt e)%Z 1000%Z); [lia | tauto]. }
  split.
  { intros e Hin Hout. rewrite filter_In, Hm in Hout.
    apply (Hopa (now - me_createdAt e)%Z 1500%Z); [lia | tauto]. }
  repeat split.
Qed.

(** X20: the accuracy shown by the fullscreen overlay equals the accuracy
    of the stats panel and of the saved summary, for any non-negative
    hit and miss counts (in particular 0 when nothing was attempted). *)
Theorem overlay_accuracy_agrees (stats : GameStats)
  (Hhit : (0 <= targetsHit stats)%Z) (Hmissed : (0 <= targetsMissed stats)%Z) :
  overlayAccuracy stats = accuracyOf stats.
Proof.
  unfold overlayAccuracy, accuracyOf.
  destruct (0 <? targetsHit stats + targetsMissed stats)%Z eqn:E.
  - apply Z.ltb_lt in E.
    assert (H1 : IZR 1 <= IZR (targetsHit stats + targetsMissed stats))
      by (apply IZR_le; lia).
    rewrite Rmax_right by exact H1. reflexivity.
  - apply Z.ltb_ge in E.
    assert (Hzero : targetsHit stats = 0%Z) by lia.
    rewrite Hzero. unfold Rdiv. ring.
Qed.

Lemma overlay_accuracy_agrees_witness :
  overlayAccuracy (zeroStats 0) = accuracyOf (zeroStats 0).
Proof.
  apply (overlay_accuracy_agrees (zeroStats 0)); cbn; lia.
Defined.

(** X21: what is drawn is what is scored.  The three discs drawn for a
    target of non-negative size are nested, a click lands on the target
    exactly when it is inside the outer disc, and it is scored Center,
    Ring or Edge exactly when it is inside the inner disc, inside the
    middle disc but not the inner, or outside the middle disc. *)
Theorem drawn_discs_are_the_zones (x y : R) (t : Target)
  (Hsize : 0 <= t_size t) :
  let '(outer, middle, inner) := drawnRadii t in
  let d := clickDistance x y t in
  let zone := getHitZone d (t_size t) in
  inner <= middle <= outer /\
  (covers x y t = true <-> d <= outer) /\
  (zone = center <-> d <= inner) /\
  (zone = ring <-> inner < d <= middle) /\
  (zone = edge <-> middle < d) /\
  (covers x y t = true -> zone = edge -> middle < d <= outer).
Proof.
  unfold drawnRadii. cbv zeta.
  rewrite covers_true_iff, getHitZone_center, getHitZone_ring,
    getHitZone_edge.
  repeat split; intros; try lra.
Qed.

Lemma drawn_discs_are_the_zones_witness :
  getHitZone (clickDistance 110 100 overlapA) (t_size overlapA) = ring.
Proof.
  pose proof (drawn_discs_are_the_zones 110 100 overlapA
                ltac:(cbn; lra)) as H.
  unfold drawnRadii in H. cbv zeta in H.
  destruct H as (_ & _ & _ & Hring & _).
  apply Hring.
  rewrite (clickDistance_right 110 100 overlapA) by (cbn; lra).
  cbn. lra.
Defined.

(** ** The statistics query of the backend *)

Lemma userSessions_after_own_save user auth table args :
  Convex.userSessions user
    (Convex.mkCtx auth (table ++ [Convex.mkDoc user args]))
  = firstn 50
      (Convex.mkDoc user args
       :: rev (filter (fun d => String.eqb (Convex.d_userId d) user) table)).
Proof.
  unfold Convex.userSessions. cbn [Convex.aimSessions].
  rewrite filter_app. cbn [filter Convex.d_userId].
  rewrite String.eqb_refl, rev_unit. reflexivity.
Qed.

Lemma userSessions_after_other_save user other auth auth' table args :
  other <> user ->
  Convex.userSessions user
    (Convex.mkCtx auth (table ++ [Convex.mkDoc other args]))
  = Convex.userSessions user (Convex.mkCtx auth' table).
Proof.
  intros Hne. unfold Convex.userSessions. cbn [Convex.aimSessions].
  rewrite filter_app. cbn [filter Convex.d_userId].
  rewrite (proj2 (String.eqb_neq other user) Hne), app_nil_r. reflexivity.
Qed.

Lemma in_firstn_in {A} (n : nat) (l : list A) (a : A) :
  In a (firstn n l) -> In a l.
Proof.
  intros H. rewrite <- (firstn_skipn n l). apply in_or_app. left. exact H.
Qed.

Lemma userSessions_owned user ctx :
  Forall (fun d => Convex.d_userId d = user) (Convex.userSessions user ctx).
Proof.
  apply Forall_forall. intros d Hd. unfold Convex.userSessions in Hd.
  apply in_firstn_in in Hd. apply in_rev in Hd. apply filter_In in Hd.
  apply String.eqb_eq, Hd.
Qed.

Lemma fold_Rmax_bounds (l : list R) : forall init,
  init <= fold_left Rmax l init /\
  (forall v, In v l -> v <= fold_left Rmax l init) /\
  (fold_left Rmax l init = init \/ In (fold_left Rmax l init) l).
Proof.
  induction l as [|a l IH]; intros init; cbn [fold_left In].
  - split; [lra|]. split; [tauto | left; reflexivity].
  - destruct (IH (Rmax init a)) as (H1 & H2 & H3).
    pose proof (Rmax_l init a). pose proof (Rmax_r init a).
    split; [lra|]. split.
    + intros v [<- | Hv]; [lra | apply H2, Hv].
    + destruct H3 as [H3 | H3]; [|right; right; exact H3].
      rewrite H3. unfold Rmax. destruct (Rle_dec init a); auto.
Qed.

Lemma fold_sum_bounds {A} (f : A -> R) (lo hi : R) (l : list A) :
  Forall (fun a => lo <= f a <= hi) l ->
  forall init,
    init + lo * INR (List.length l)
    <= fold_left (fun sum a => sum + f a) l init
    <= init + hi * INR (List.length l).
Proof.
  induction 1 as [|a l Ha Hl IH]; intros init.
  - cbn. lra.
  - cbn [fold_left]. specialize (IH (init + f a)).
    change (List.length (a :: l)) with (S (List.length l)).
    rewrite S_INR. lra.
Qed.

(** X22: saving and reading back.  After a signed-in user saves a
    session, that user's statistics exist, list the new session first
    among the recent ones, count it (up to the cap of 50), and report a
    best score no lower than its score. *)
Theorem saved_session_shows_in_stats ctx args user
  (Hauth : Convex.auth ctx = Some user) :
  let ctx' := snd (Convex.saveSession ctx args) in
  let before :=
    filter (fun d => String.eqb (Convex.d_userId d) user)
           (Convex.aimSessions ctx) in
  exists stats,
    Convex.getUserStats ctx' = Some stats /\
    hd_error (Convex.recentSessions stats) = Some (Convex.mkDoc user args) /\
    Convex.totalSessions stats = Nat.min 50 (S (List.length before)) /\
    Convex.a_score args <= Convex.bestScore stats.
Proof.
  cbv zeta. rewrite (saveSession_accepts ctx args user Hauth). cbn [snd].
  unfold Convex.getUserStats, Convex.getAuthUserId. cbn [Convex.auth].
  rewrite userSessions_after_own_save.
  set (before := rev (filter _ (Convex.aimSessions ctx))).
  change (firstn 50 (Convex.mkDoc user args :: before))
    with (Convex.mkDoc user args :: firstn 49 before).
  eexists. split; [reflexivity|].
  cbn [Convex.recentSessions Convex.totalSessions Convex.bestScore].
  split; [reflexivity|]. split.
  - cbn [List.length]. rewrite length_firstn. unfold before.
    rewrite length_rev. lia.
  - cbn [Convex.d_args].
    exact (proj1 (fold_Rmax_bounds _ (Convex.a_score args))).
Qed.

Lemma saved_session_shows_in_stats_witness :
  exists stats,
    Convex.getUserStats
      (snd (Convex.saveSession (signedIn "u1"%string) sampleArgs))
    = Some stats /\
    Convex.totalSessions stats = 1%nat.
Proof.
  destruct (saved_session_shows_in_stats (signedIn "u1"%string) sampleArgs
              "u1"%string eq_refl) as (stats & Hs & _ & Hn & _).
  exists stats. split; [exact Hs | exact Hn].
Defined.

(** X23: statistics are per user.  A session saved by someone else never
    changes what a user's statistics query returns, and a caller without
    identity gets no statistics at all. *)
Theorem stats_are_per_user table args user other
  (Hother : other <> user) :
  let ctx' :=
    snd (Convex.saveSession (Convex.mkCtx (Some other) table) args) in
  Convex.getUserStats (Convex.mkCtx (Some user) (Convex.aimSessions ctx'))
  = Convex.getUserStats (Convex.mkCtx (Some user) table) /\
  Convex.getUserStats (Convex.mkCtx None (Convex.aimSessions ctx')) = None.
Proof.
  cbv zeta.
  rewrite (saveSession_accepts (Convex.mkCtx (Some other) table) args other
             eq_refl). cbn [snd].
  cbn [Convex.aimSessions]. split; [|reflexivity].
  unfold Convex.getUserStats, Convex.getAuthUserId. cbn [Convex.auth].
  rewrite (userSessions_after_other_save user other _ (Some user) table args
             Hother).
  reflexivity.
Qed.

Lemma stats_are_per_user_witness :
  Convex.getUserStats
    (Convex.mkCtx (Some "u1"%string)
       (Convex.aimSessions
          (snd (Convex.saveSession (signedIn "u2"%string) sampleArgs))))
  = Convex.getUserStats (signedIn "u1"%string).
Proof.
  destruct (stats_are_per_user [] sampleArgs "u1"%string "u2"%string
              ltac:(discriminate)) as [H _].
  exact H.
Defined.

(** X24: what the statistics contain.  For a signed-in caller the query
    always answers; it counts at most 50 sessions, all of them the
    caller's; it lists at most 10 recent ones, the newest of those
    counted; the best score is at least every counted score and, when
    there is a session, is the score of one of them; and if every stored
    accuracy lies in [0,100], so does the average accuracy. *)
Theorem stats_contents ctx user
  (Hauth : Convex.auth ctx = Some user) :
  let sessions := Convex.userSessions user ctx in
  exists stats,
    Convex.getUserStats ctx = Some stats /\
    Convex.totalSessions stats = List.length sessions /\
    (Convex.totalSessions stats <= 50)%nat /\
    Convex.recentSessions stats = firstn 10 sessions /\
    (List.length (Convex.recentSessions stats) <= 10)%nat /\
    Forall (fun d => Convex.d_userId d = user) sessions /\
    (forall d, In d sessions ->
               Convex.a_score (Convex.d_args d) <= Convex.bestScore stats) /\
    (sessions <> [] ->
     exists d, In d sessions /\
               Convex.bestScore stats = Convex.a_score (Convex.d_args d)) /\
    (Forall (fun d => 0 <= Convex.a_accuracy (Convex.d_args d) <= 100)
            (Convex.aimSessions ctx) ->
     0 <= Convex.averageAccuracy stats <= 100).
Proof.
  cbv zeta.
  pose proof (userSessions_owned user ctx) as Howned.
  assert (Hcap : (List.length (Convex.userSessions user ctx) <= 50)%nat).
  { unfold Convex.userSessions. rewrite length_firstn. lia. }
  assert (Hsub : forall d, In d (Convex.userSessions user ctx) ->
                           In d (Convex.aimSessions ctx)).
  { intros d Hd. unfold Convex.userSessions in Hd.
    apply in_firstn_in in Hd. apply in_rev in Hd. apply filter_In in Hd.
    apply Hd. }
  unfold Convex.getUserStats, Convex.getAuthUserId. rewrite Hauth.
  destruct (Convex.userSessions user ctx) as [|s rest] eqn:E.
  - eexists. split; [reflexivity|].
    cbn [Convex.totalSessions Convex.recentSessions Convex.bestScore
         Convex.averageAccuracy List.length firstn].
    split; [reflexivity|]. split; [lia|]. split; [reflexivity|].
    split; [lia|]. split; [constructor|].
    split; [intros d []|]. split; [congruence|].
    intros _. lra.
  - eexists. split; [reflexivity|].
    cbn [Convex.totalSessions Convex.recentSessions Convex.bestScore
         Convex.averageAccuracy].
    destruct (fold_Rmax_bounds
                (map (fun d => Convex.a_score (Convex.d_args d)) rest)
                (Convex.a_score (Convex.d_args s))) as (B1 & B2 & B3).
    split; [reflexivity|]. split; [exact Hcap|]. split; [reflexivity|].
    split; [rewrite length_firstn; lia|]. split; [exact Howned|].
    split.
    { intros d [<- | Hd]; [exact B1|].
      apply B2. apply in_map_iff. exists d. tauto. }
    split.
    { intros _. destruct B3 as [B3 | B3].
      - exists s. split; [left; reflexivity | exact B3].
      - apply in_map_iff in B3. destruct B3 as (d & Hd & Hin).
        exists d. split; [right; exact Hin | symmetry; exact Hd]. }
    intros Hacc.
    assert (Hall : Forall (fun d => 0 <= Convex.a_accuracy (Convex.d_args d)
                                    <= 100) (s :: rest)).
    { apply Forall_forall. intros d Hd.
      rewrite Forall_forall in Hacc. apply Hacc, Hsub, Hd. }
    pose proof (fold_sum_bounds
                  (fun d => Convex.a_accuracy (Convex.d_args d)) 0 100
                  (s :: rest) Hall 0) as [Hlo Hhi].
    set (total := fold_left _ (s :: rest) 0) in *.
    assert (Hn : 0 < INR (List.length (s :: rest)))
      by (apply lt_0_INR; cbn; lia).
    set (n := INR (List.length (s :: rest))) in *.
    split.
    + apply Rmult_le_reg_r with n; [exact Hn|].
      unfold Rdiv. rewrite Rmult_assoc, Rinv_l by lra. lra.
    + apply Rmult_le_reg_r with n; [exact Hn|].
      unfold Rdiv. rewrite Rmult_assoc, Rinv_l by lra. lra.
Qed.

Lemma stats_contents_witness :
  exists stats,
    Convex.getUserStats
      (snd (Convex.saveSession (signedIn "u1"%string) sampleArgs))
    = Some stats /\
    (List.length (Convex.recentSessions stats) <= 10)%nat.
Proof.
  destruct (stats_contents
              (snd (Convex.saveSession (signedIn "u1"%string) sampleArgs))
              "u1"%string eq_refl)
    as (stats & Hs & _ & _ & _ & Hrecent & _).
  exists stats. split; [exact Hs | exact Hrecent].
Defined.

(** ** Witnesses for the session lemmas above *)

Lemma running_mean_undisturbed_witness :
  let rnd := fun _ : nat => 0.5 in
  averageMissDistance
    (gameStats
       (client
          (fst (session classic defaultSettings Convex.saveSession canvas 0
                        rnd [EvClick 500 rnd 440 300] (idleWorld signedOut)))))
  = mean
      (analysedDistances
         (sessionClicks classic defaultSettings Convex.saveSession canvas 0
                        rnd [EvClick 500 rnd 440 300] (idleWorld signedOut))).
Proof.
  cbv zeta.
  apply (running_mean_undisturbed classic defaultSettings Convex.saveSession
           canvas 0 (fun _ => 0.5) [EvClick 500 (fun _ => 0.5) 440 300]
           (idleWorld signedOut)).
  - discriminate.
  - unfold session. cbn [run snd tally].
    destruct (_ && _); reflexivity.
  - unfold sessionClicks. cbn [clickLog logClick].
    change (isPlaying
              (client (onClient (startGame classic defaultSettings canvas 0
                                           (fun _ => 0.5))
                                (idleWorld signedOut))))
      with true.
    cbn [analysedDistances noClicks app]. discriminate.
Defined.

Lemma session_velocityOk_witness :
  Forall velocityOk
    (targets
       (client
          (fst (session speed defaultSettings Convex.saveSession canvas 0
                        (fun _ => 0.5)
                        [EvSpawnTick canvas 600 (fun _ => 0.25)]
                        (idleWorld signedOut))))).
Proof.
  apply (session_velocityOk speed defaultSettings Convex.saveSession canvas 0
           (fun _ => 0.5) [EvSpawnTick canvas 600 (fun _ => 0.25)]
           (idleWorld signedOut)).
  - intros _. lra.
  - constructor; [|constructor]. cbn. intros _. lra.
Defined.

(** ** Accuracy at the extremes, and the way to the statistics *)

(** X27: for non-negative counters, the accuracy is 100 exactly when at
    least one target was hit and none was missed, and 0 exactly when no
    target was hit. *)
Theorem accuracy_extremes (stats : GameStats)
  (Hhit : (0 <= targetsHit stats)%Z) (Hmissed : (0 <= targetsMissed stats)%Z) :
  (accuracyOf stats = 100
   <-> (0 < targetsHit stats)%Z /\ targetsMissed stats = 0%Z) /\
  (accuracyOf stats = 0 <-> targetsHit stats = 0%Z).
Proof.
  unfold accuracyOf.
  destruct (0 <? targetsHit stats + targetsMissed stats)%Z eqn:E.
  - apply Z.ltb_lt in E.
    assert (Ht : 0 < IZR (targetsHit stats + targetsMissed stats))
      by (apply IZR_lt; exact E).
    set (t := IZR (targetsHit stats + targetsMissed stats)) in *.
    assert (Hq : forall c, IZR (targetsHit stats) / t * 100 = c * 100
                           <-> IZR (targetsHit stats) = c * t).
    { intros c. split; intros H.
      - assert (H' : IZR (targetsHit stats) / t = c) by lra.
        rewrite <- H'. field. lra.
      - rewrite H. field. lra. }
    split.
    + pose proof (Hq 1) as H1. rewrite !Rmult_1_l in H1. rewrite H1.
      unfold t. split.
      * intros H. apply eq_IZR in H. lia.
      * intros [H2 H3]. f_equal. lia.
    + pose proof (Hq 0) as H0. rewrite !Rmult_0_l in H0. rewrite H0.
      split.
      * intros H. apply (eq_IZR _ 0) in H. exact H.
      * intros H. rewrite H. reflexivity.
  - apply Z.ltb_ge in E. split.
    + split; [intros H; lra | intros [H1 H2]; lia].
    + split; [intros _; lia | reflexivity].
Qed.

Lemma accuracy_extremes_witness :
  accuracyOf (zeroStats 0) = 0.
Proof.
  destruct (accuracy_extremes (zeroStats 0) ltac:(cbn; lia) ltac:(cbn; lia))
    as [_ H0].
  apply H0. reflexivity.
Defined.

Lemma getUserStats_after_save ctx args user :
  Convex.auth ctx = Some user ->
  exists stats,
    Convex.getUserStats (snd (Convex.saveSession ctx args)) = Some stats /\
    hd_error (Convex.recentSessions stats) = Some (Convex.mkDoc user args) /\
    Convex.a_score args <= Convex.bestScore stats.
Proof.
  intros Hauth. rewrite (saveSession_accepts ctx args user Hauth). cbn [snd].
  unfold Convex.getUserStats, Convex.getAuthUserId. cbn [Convex.auth].
  rewrite userSessions_after_own_save.
  set (before := rev (filter _ (Convex.aimSessions ctx))).
  change (firstn 50 (Convex.mkDoc user args :: before))
    with (Convex.mkDoc user args :: firstn 49 before).
  eexists. split; [reflexivity|].
  cbn [Convex.recentSessions Convex.bestScore Convex.d_args].
  split; [reflexivity|].
  exact (proj1 (fold_Rmax_bounds _ (Convex.a_score args))).
Qed.

(** X28: from the end of a game to the statistics, for a signed-in
    player.  When the Stop button ends the session, the success
    notification is raised and the next statistics query lists that
    session first, with the session's score, hit and miss counts,
    accuracy and configured duration, and a best score no lower than the
    session's.  When the countdown ends it, the session listed first is
    the start-of-game record instead: score, hit and miss counts and
    accuracy are 0, whatever was scored, with the configured duration. *)
Theorem finished_session_reaches_stats mode settings w user
  (Hauth : Convex.auth (server w) = Some user) :
  (let w' := stopGame mode settings Convex.saveSession w in
   let s := gameStats (client w) in
   exists stats newest,
     Convex.getUserStats (server w') = Some stats /\
     hd_error (Convex.recentSessions stats) = Some newest /\
     Convex.d_userId newest = user /\
     Convex.a_score (Convex.d_args newest) = IZR (score s) /\
     Convex.a_targetsHit (Convex.d_args newest) = IZR (targetsHit s) /\
     Convex.a_targetsMissed (Convex.d_args newest) = IZR (targetsMissed s) /\
     Convex.a_accuracy (Convex.d_args newest) = accuracyOf s /\
     Convex.a_duration (Convex.d_args newest) = IZR (gameTime settings) /\
     IZR (score s) <= Convex.bestScore stats /\
     (exists note, toasts w' = toasts w ++ [note]
                   /\ note <> toast_error "Failed to save game session")) /\
  (isPlaying (client w) = true -> (timeLeft (client w) <= 1)%Z ->
   let w' := timerTick mode settings Convex.saveSession w in
   exists stats newest,
     Convex.getUserStats (server w') = Some stats /\
     hd_error (Convex.recentSessions stats) = Some newest /\
     Convex.d_userId newest = user /\
     Convex.a_score (Convex.d_args newest) = 0 /\
     Convex.a_targetsHit (Convex.d_args newest) = 0 /\
     Convex.a_targetsMissed (Convex.d_args newest) = 0 /\
     Convex.a_accuracy (Convex.d_args newest) = 0 /\
     Convex.a_duration (Convex.d_args newest) = IZR (gameTime settings) /\
     toasts w' = toasts w ++ [toast_success 0 0 0]).
Proof.
  split.
  - cbv zeta. unfold stopGame.
    set (args := sessionArgs mode settings (gameStats (client w))).
    destruct (getUserStats_after_save (server w) args user Hauth)
      as (stats & Hstats & Hhead & Hbest).
    assert (Hsrv : server (endGame mode settings Convex.saveSession w)
                   = snd (Convex.saveSession (server w) args)).
    { unfold endGame. fold args.
      rewrite (saveSession_accepts (server w) args user Hauth). reflexivity. }
    exists stats, (Convex.mkDoc user args).
    rewrite Hsrv. split; [exact Hstats|]. split; [exact Hhead|].
    repeat (split; [reflexivity|]).
    split; [exact Hbest|].
    unfold endGame. fold args.
    rewrite (saveSession_accepts (server w) args user Hauth).
    eexists. split; [reflexivity | discriminate].
  - intros Hplay Htime. cbv zeta.
    set (args := sessionArgs mode settings (startOfGameStats w)).
    destruct (getUserStats_after_save (server w) args user Hauth)
      as (stats & Hstats & Hhead & _).
    assert (Htick :
      timerTick mode settings Convex.saveSession w
      = mkWorld
          (setTimeLeft (fun _ => 0%Z)
             (setTargets (fun _ => []) (setIsPlaying false (client w))))
          (snd (Convex.saveSession (server w) args))
          (toasts w ++ [toast_success 0 0 0])).
    { unfold timerTick. rewrite Hplay. cbn [negb].
      apply Z.leb_le in Htime. rewrite Htime.
      unfold endGameOfStartRender. fold args.
      rewrite (saveSession_accepts (server w) args user Hauth).
      reflexivity. }
    exists stats, (Convex.mkDoc user args).
    rewrite Htick. cbn [server toasts].
    split; [exact Hstats|]. split; [exact Hhead|].
    repeat split.
Qed.

Lemma finished_session_reaches_stats_witness :
  exists stats,
    Convex.getUserStats
      (server (endGame classic defaultSettings Convex.saveSession
                       (earlyStop (signedIn "u1"%string))))
    = Some stats /\
    0 <= Convex.bestScore stats.
Proof.
  destruct (finished_session_reaches_stats classic defaultSettings
              (earlyStop (signedIn "u1"%string)) "u1"%string eq_refl)
    as ((stats & newest & Hs & _ & _ & _ & _ & _ & _ & _ & Hbest & _) & _).
  exists stats. split; [exact Hs|].
  cbn in Hbest. exact Hbest.
Defined.

(** ** The queued updaters and the start-of-game statistics *)

(** The miss updater and a hit updater of [setGameStats] commute, so the
    statistics of the next render do not depend on the order in which
    their queue is run. *)
Lemma recordMiss_recordHit_commute p shot zone awarded reactionTime stats :
  recordMiss p shot (recordHit zone awarded reactionTime stats)
  = recordHit zone awarded reactionTime (recordMiss p shot stats).
Proof.
  destruct zone; reflexivity.
Qed.

Lemma step_startTime mode settings callSave e w :
  startTime (gameStats (client (step mode settings callSave e w)))
  = startTime (gameStats (client w)).
Proof.
  destruct e; cbn [step onClient client].
  - destruct (isPlaying (client w)) eqn:Hplay.
    + rewrite handleCanvasClick_hit_stats by exact Hplay.
      cbn [recordMiss startTime].
      apply filterHits_preserves
        with (P := fun s => startTime s = startTime (gameStats (client w)));
        [|reflexivity].
      intros r t st H. exact H.
    + unfold handleCanvasClick. rewrite Hplay. reflexivity.
  - unfold expireTarget.
    destruct (_ <? _)%nat; reflexivity.
  - unfold spawnTick. destruct (negb _); [reflexivity|].
    destruct (_ <? _)%nat; reflexivity.
  - unfold animationTick. destruct (negb _); reflexivity.
  - reflexivity.
  - unfold timerTick. destruct (negb _); [reflexivity|].
    destruct (_ <=? _)%Z; cbn [client]; [|reflexivity].
    rewrite endGameOfStartRender_client. reflexivity.
  - unfold stopGame. rewrite endGame_client. reflexivity.
Qed.

(** Throughout a session the start-of-game statistics read off the current
    state are the statistics [startGame] set. *)
Lemma session_startOfGameStats mode settings callSave bounds now rnd evs w :
  startOfGameStats
    (fst (session mode settings callSave bounds now rnd evs w))
  = zeroStats now.
Proof.
  unfold session, startOfGameStats. f_equal.
  assert (Hstart :
    startTime
      (gameStats (client (onClient (startGame mode settings bounds now rnd) w)))
    = now) by reflexivity.
  revert Hstart.
  generalize (onClient (startGame mode settings bounds now rnd) w) noTally.
  induction evs as [|e evs IH]; intros w0 g0 H0; cbn [run fst].
  - exact H0.
  - apply IH. rewrite step_startTime. exact H0.
Qed.
